(** * FastEstimator datasets: splitting and paired sampling

    A shallow embedding of [fastestimator/dataset/fe_dataset.py] (the
    [FEDataset.split] helper) and of
    [fastestimator/dataset/siamese_dir_dataset.py] (the class-grouped
    [SiameseDirDataset]), followed by the properties of the two; and of the
    cookie lookup and the retry loop of
    [fastestimator/util/google_download_util.py]. *)

From Stdlib Require Import ZArith PrimFloat FloatOps SpecFloat.
From stdpp Require Import gmap strings list sorting.

Set Warnings "-inexact-float".
Local Open Scope Z_scope.

(** ** The Python runtime the two files rely on *)

Module Py.

(** The exception classes the code can raise. *)
Inductive exn : Set :=
| AssertionError
| ValueError
| OverflowError
| IndexError
| KeyError.

#[global] Instance exn_eq_dec : EqDecision exn.
Proof. solve_decision. Defined.

(** A computation either returns or raises. *)
Inductive result (A : Type) : Type :=
| Ok (a : A)
| Raise (e : exn).
Arguments Ok {A} a.
Arguments Raise {A} e.

#[global] Instance result_ret : MRet result := fun _ a => Ok a.
#[global] Instance result_bind : MBind result := fun _ _ f r =>
  match r with
  | Ok a => f a
  | Raise e => Raise e
  end.

#[global] Instance result_fmap : FMap result := fun _ _ f r =>
  match r with
  | Ok a => Ok (f a)
  | Raise e => Raise e
  end.

(** [for x in l: ... f x ...], stopping at the first exception. *)
Fixpoint for_each {A B} (f : A -> result B) (l : list A) : result (list B) :=
  match l with
  | [] => Ok []
  | x :: l' => y ← f x; ys ← for_each f l'; Ok (y :: ys)
  end.

(** A computation on a mutable object of type [S]: the object as the
    computation leaves it comes back also when an exception is raised. *)
Definition M (S A : Type) : Type := S -> result A * S.

#[global] Instance M_ret {S} : MRet (M S) := fun _ a s => (Ok a, s).
#[global] Instance M_bind {S} : MBind (M S) := fun _ _ f m s =>
  match m s with
  | (Ok a, s') => f a s'
  | (Raise e, s') => (Raise e, s')
  end.

Definition lift {S A} (r : result A) : M S A := fun s => (r, s).
Definition get {S} : M S S := fun s => (Ok s, s).
Definition put {S} (s : S) : M S unit := fun _ => (Ok tt, s).

(** [range(start, stop)] and [range(start, stop, -1)]. *)
Definition range (start stop : Z) : list Z := seqZ start (stop - start).
Definition range_down (start stop : Z) : list Z :=
  (fun i => start - i) <$> seqZ 0 (start - stop).

(** [l[i]] on a list: a negative index counts from the end. *)
Definition list_getitem {A} (l : list A) (i : Z) : result A :=
  let n := Z.of_nat (length l) in
  let j := if i <? 0 then i + n else i in
  if (j <? 0) || (n <=? j) then Raise IndexError
  else match l !! Z.to_nat j with
       | Some x => Ok x
       | None => Raise IndexError
       end.

(** [d[k]] on a dict. *)
Definition dict_getitem `{Lookup K A D} (d : D) (k : K) : result A :=
  match d !! k with
  | Some x => Ok x
  | None => Raise KeyError
  end.

(** *** Floats *)

(** The conversion of an [int] operand of a float operation: rounded to
    the nearest double, [OverflowError] when out of range. *)
Definition float_of_int (z : Z) : result float :=
  let x := SF2Prim (binary_normalize prec emax z 0 false) in
  if is_infinity x then Raise OverflowError else Ok x.

(** [math.ceil]. *)
Definition ceil (x : float) : result Z :=
  match Prim2SF x with
  | S754_zero _ => Ok 0
  | S754_finite s m e =>
      let n := if s then Z.neg m else Z.pos m in
      Ok (if 0 <=? e then n * 2 ^ e else - ((- n) `div` 2 ^ (- e)))
  | S754_infinity _ => Raise OverflowError
  | S754_nan => Raise ValueError
  end.

(** *** Randomness

    The generator is a tape of raw draws; a bounded draw reduces the next
    raw draw into its range. The sampling functions of [random] and
    [numpy.random] are library code: they are modelled on their documented
    behaviour, as draws from the tape. *)
Definition tape : Type := nat -> nat.
Definition advance (k : nat) (rnd : tape) : tape := fun i => rnd (k + i)%nat.

(** [k] draws without replacement: each draw picks a position of what is
    left of the pool. *)
Fixpoint draw {A} (pool : list A) (k : nat) (rnd : tape) : list A :=
  match k with
  | O => []
  | S k' =>
      let j := (rnd O `mod` length pool)%nat in
      match pool !! j with
      | Some x => x :: draw (delete j pool) k' (advance 1 rnd)
      | None => []
      end
  end.

(** [random.sample(population, k)]: [ValueError] on a negative [k] and on
    a [k] above the length of the population. *)
Definition random_sample {A} (population : list A) (k : Z) (rnd : tape)
  : result (list A) :=
  if (k <? 0) || (Z.of_nat (length population) <? k) then Raise ValueError
  else Ok (draw population (Z.to_nat k) rnd).

(** [np.random.choice(a)]: [ValueError] on an empty [a]. *)
Definition choice {A} (a : list A) (rnd : tape) : result A :=
  match a !! (rnd O `mod` length a)%nat with
  | Some x => Ok x
  | None => Raise ValueError
  end.

(** [np.random.choice(a, size=size, replace=False)]: [ValueError] on an
    empty [a] and on a [size] above its length. *)
Definition choice_no_replace `{EqDecision A} (a : list A) (size : nat) (rnd : tape)
  : result (list A) :=
  if bool_decide (a = []) || (length a <? size)%nat then Raise ValueError
  else Ok (draw a size rnd).

End Py.
Import Py.

(** ** fe_dataset.py *)

Module FE.

(** An argument of [split]: a [float], an [int], or any other object. *)
Inductive descriptor : Set :=
| DFloat (f : float)
| DInt (n : Z)
| DOther.

(** A generator expression [(indices[i] for i in range(start, stop))]:
    the range is fixed when the expression is evaluated, the elements are
    read when the generator is consumed. *)
Record gen : Set := Gen { g_indices : list Z; g_start : Z; g_stop : Z }.

(** [for i in g: ... f i ...]: the loop reads [indices[i']] for the next
    [i'] of the range, then runs its body on it. *)
Definition gen_for_each {B} (f : Z -> result B) (g : gen) : result (list B) :=
  for_each (fun i' => i ← list_getitem (g_indices g) i'; f i)
           (range (g_start g) (g_stop g)).

(** [list(g)]. *)
Definition consume (g : gen) : result (list Z) := gen_for_each Ok g.

(** The abstract methods of the class. *)
Class FEDataset (D : Type) : Type := {
  len : D -> Z;
  do_split : list gen -> M D (list D);
}.

(** What [split] returns: one dataset, or the list of them. *)
Inductive split_result (D : Type) : Type :=
| One (d : D)
| Many (ds : list D).
Arguments One {D} d.
Arguments Many {D} ds.

Definition split_types : list string := ["random"; "from_front"; "from_back"].

(** [math.ceil(original_size * frac)] for a float [frac]. *)
Definition ceil_of (original_size : Z) (frac : float) : result Z :=
  x ← float_of_int original_size; ceil (x * frac)%float.

(** The loop over [fractions], from the accumulators it starts with. *)
Fixpoint resolve (original_size : Z) (fractions : list descriptor)
    (frac_sum : float) (int_sum : Z) (n_samples : list Z)
  : result (float * Z * list Z) :=
  match fractions with
  | [] => Ok (frac_sum, int_sum, n_samples)
  | DFloat frac :: rest =>
      let frac_sum := (frac_sum + frac)%float in
      frac ← ceil_of original_size frac;
      resolve original_size rest frac_sum (int_sum + frac) (n_samples ++ [frac])
  | DInt frac :: rest =>
      resolve original_size rest frac_sum (int_sum + frac) (n_samples ++ [frac])
  | DOther :: _ => Raise ValueError
  end.

(** Lines 30 to 50 of [split]: every check, in the order of the code. *)
Definition validate (original_size : Z) (fractions : list descriptor)
    (method : string) : result (Z * list Z) :=
  if bool_decide (length fractions = 0%nat) then Raise AssertionError
  else if negb (bool_decide (method ∈ split_types)) then Raise AssertionError
  else
    '(frac_sum, int_sum, n_samples) ← resolve original_size fractions 0 0 [];
    if negb (frac_sum <? 1)%float then Raise AssertionError
    else if negb (int_sum <? original_size) then Raise AssertionError
    else Ok (int_sum, n_samples).

(** The index pool of the chosen method. *)
Definition select_indices (method : string) (original_size int_sum : Z)
    (rnd : tape) : result (list Z) :=
  if bool_decide (method = "random") then
    random_sample (range 0 original_size) int_sum rnd
  else if bool_decide (method = "from_front") then
    Ok (range 0 int_sum)
  else if bool_decide (method = "from_back") then
    Ok (range_down (original_size - 1) (original_size - int_sum - 1))
  else Ok [].

(** One generator per entry of [n_samples], each starting where the
    previous one stopped. *)
Fixpoint slices (indices : list Z) (start : Z) (n_samples : list Z)
  : list gen :=
  match n_samples with
  | [] => []
  | stop :: rest =>
      Gen indices start (start + stop) :: slices indices (start + stop) rest
  end.

Definition split `{FEDataset D} (rnd : tape) (fractions : list descriptor)
    (method : string) : M D (split_result D) :=
  self ← get;
  let original_size := len self in
  '(int_sum, n_samples) ← lift (validate original_size fractions method);
  indices ← lift (select_indices method original_size int_sum rnd);
  splits ← do_split (slices indices 0 n_samples);
  if bool_decide (length fractions = 1%nat) then
    d ← lift (list_getitem splits 0); mret (One d)
  else mret (Many splits).

End FE.

(** ** siamese_dir_dataset.py *)

Module Siamese.
Import FE.

(** Records are objects: a dataset holds references to them, and the
    store maps each reference to the record's fields. A set of indices is a
    [gset]; where the code iterates one, in an order Python leaves open, the
    model iterates its [elements]. *)
Definition loc : Set := positive.

(** [for x in l: ... f x ...] for a body that mutates. *)
Fixpoint for_each_M {S A B} (f : A -> M S B) (l : list A) : M S (list B) :=
  match l with
  | [] => mret []
  | x :: l' => y ← f x; ys ← for_each_M f l'; mret (y :: ys)
  end.

(** [self.data] is a dict in insertion order: its items, keys unique. *)
Fixpoint items_get {A} (d : list (Z * A)) (k : Z) : option A :=
  match d with
  | [] => None
  | (k', v) :: d' => if bool_decide (k' = k) then Some v else items_get d' k
  end.

Fixpoint items_pop {A} (d : list (Z * A)) (k : Z) : option (A * list (Z * A)) :=
  match d with
  | [] => None
  | (k', v) :: d' =>
      if bool_decide (k' = k) then Some (v, d')
      else '(x, d'') ← items_pop d' k; Some (x, (k', v) :: d'')
  end.

(** [{new_idx: v for new_idx, v in enumerate(l)}], counting from [start]. *)
Fixpoint enumerate {A} (start : Z) (l : list A) : list (Z * A) :=
  match l with
  | [] => []
  | x :: l' => (start, x) :: enumerate (start + 1) l'
  end.

Section Dataset.
(** The values of a record's fields: any type with equality and a hash
    (labels are dict keys), with an order on it (labels are sorted), and
    holding the integers (the match label). *)
Context {V : Type} `{Countable V}.
Context (V_le : relation V) `{!RelDecision V_le}.
Context (of_int : Z -> V).

Record dataset : Type := Dataset {
  data : list (Z * loc);
  class_data : gmap V (gset Z);
  percent_matching_data : float;
  data_key_left : string;
  data_key_right : string;
  label_key : string;
}.

Definition set_data (d : list (Z * loc)) (self : dataset) : dataset :=
  Dataset d (class_data self) (percent_matching_data self)
          (data_key_left self) (data_key_right self) (label_key self).

Definition set_class_data (cd : gmap V (gset Z)) (self : dataset) : dataset :=
  Dataset (data self) cd (percent_matching_data self)
          (data_key_left self) (data_key_right self) (label_key self).

(** [self.data[index]]. *)
Definition data_getitem (self : dataset) (index : Z) : result loc :=
  match items_get (data self) index with
  | Some l => Ok l
  | None => Raise KeyError
  end.

(** [elem[key]] for the record [elem] refers to. *)
Definition field (h : gmap loc (gmap string V)) (elem : loc) (key : string)
  : result V :=
  dict_getitem (h !!! elem) key.

(** The loop of [_data_to_class], from the dict built so far. *)
Fixpoint data_to_class_from (h : gmap loc (gmap string V))
    (label_key : string) (data : list (Z * loc))
    (class_data : gmap V (gset Z)) : result (gmap V (gset Z)) :=
  match data with
  | [] => Ok class_data
  | (idx, elem) :: rest =>
      c ← field h elem label_key;
      data_to_class_from h label_key rest
        (<[c := default ∅ (class_data !! c) ∪ {[idx]}]> class_data)
  end.

Definition data_to_class (h : gmap loc (gmap string V))
    (data : list (Z * loc)) (label_key : string)
  : result (gmap V (gset Z)) :=
  data_to_class_from h label_key data ∅.

(** Modelled from the spec: the constructor of the superclass, which
    scans the directory, is not part of the sources; what it leaves in
    [self.data], an index to record mapping, is the argument [data]. *)
Definition init (h : gmap loc (gmap string V)) (data : list (Z * loc))
    (data_key_left data_key_right label_key : string)
    (percent_matching_data : float) : result dataset :=
  class_data ← data_to_class h data label_key;
  Ok (Dataset data class_data percent_matching_data
              data_key_left data_key_right label_key).

(** Modelled from the spec: [__len__] is inherited from a class that is
    not part of the sources; the length of a dataset is its number of
    raw instances. *)
Definition len (self : dataset) : Z := Z.of_nat (length (data self)).

Definition split_length (self : dataset) : Z :=
  Z.of_nat (size (class_data self)).

(** Modelled from the spec: [_skip_init] is inherited from a class that
    is not part of the sources; it builds a new instance holding the
    given records and class index, the other attributes as in [self]. *)
Definition skip_init (data : list (Z * loc)) (class_data : gmap V (gset Z))
    (self : dataset) : dataset :=
  Dataset data class_data (percent_matching_data self)
          (data_key_left self) (data_key_right self) (label_key self).

(** [self.data.pop(old_idx)]. *)
Definition pop (old_idx : Z) : M dataset loc := fun self =>
  match items_pop (data self) old_idx with
  | Some (v, d) => (Ok v, set_data d self)
  | None => (Raise KeyError, self)
  end.

(** [{new_idx: self.data.pop(old_idx) for new_idx, old_idx in enumerate(split)}]. *)
Fixpoint pop_all (new_idx : Z) (split : list Z) : M dataset (list (Z * loc)) :=
  match split with
  | [] => mret []
  | old_idx :: rest =>
      v ← pop old_idx;
      d ← pop_all (new_idx + 1) rest;
      mret ((new_idx, v) :: d)
  end.

(** The sorted class labels. *)
Definition sorted_keys (self : dataset) : list V :=
  merge_sort V_le (elements (dom (class_data self))).

(** The body of the loop of [_do_split] for one entry of [splits]. *)
Definition split_off (h : gmap loc (gmap string V)) (split : gen)
  : M dataset dataset :=
  self ← get;
  let int_class_keys := sorted_keys self in
  split ← lift (concat (A:=Z) <$> gen_for_each (fun i =>
             c ← list_getitem int_class_keys i;
             items ← dict_getitem (class_data self) c;
             Ok (elements items)) split);
  data ← pop_all 0 split;
  class_data ← lift (data_to_class h data (label_key self));
  self ← get;
  mret (skip_init data class_data self).

(** [_do_split]. The summary cache it clears at the end belongs to a class
    outside the sources and is no part of the state modelled here. *)
Definition do_split (h : gmap loc (gmap string V)) (splits : list gen)
  : M dataset (list dataset) :=
  results ← for_each_M (split_off h) splits;
  self ← get;
  put (set_data (enumerate 0 (snd <$> data self)) self);;
  self ← get;
  class_data ← lift (data_to_class h (data self) (label_key self));
  put (set_class_data class_data self);;
  mret results.

(** Modelled from the spec: the class inherits [split] from a class that
    is not part of the sources. It is the [split] of [FEDataset] run on the
    effective split length of the dataset, which this class gives as
    [_split_length], the number of its classes. *)
#[export] Instance siamese_dataset (h : gmap loc (gmap string V))
  : FEDataset dataset :=
  {| FE.len := split_length; FE.do_split := do_split h |}.

(** [deepcopy(elem)]: a new record object with the same fields. *)
Definition deepcopy (elem : loc) : M (gmap loc (gmap string V)) loc :=
  fun h => let l := fresh (dom h) in (Ok l, <[l := h !!! elem]> h).

(** [elem[key] = v]. *)
Definition setitem (elem : loc) (key : string) (v : V)
  : M (gmap loc (gmap string V)) unit :=
  fun h => (Ok tt, <[elem := <[key := v]> (h !!! elem)]> h).

(** [__getitem__]: [u] is the draw of [np.random.uniform(0, 1)]. *)
Definition getitem (self : dataset) (u : float) (rnd : tape) (index : Z)
  : M (gmap loc (gmap string V)) loc :=
  elem ← lift (data_getitem self index);
  base_item ← deepcopy elem;
  if (u <? percent_matching_data self)%float then
    h ← get;
    c ← lift (field h base_item (label_key self));
    clazz_items ← lift (dict_getitem (class_data self) c);
    other ← lift (choice (elements (clazz_items ∖ {[index]})) rnd);
    o ← lift (data_getitem self other);
    x ← lift (field h o (data_key_left self));
    setitem base_item (data_key_right self) x;;
    setitem base_item (label_key self) (of_int 1);;
    mret base_item
  else
    h ← get;
    c ← lift (field h base_item (label_key self));
    let other_classes := dom (class_data self) ∖ {[c]} in
    other_class ← lift (choice (elements other_classes) rnd);
    items ← lift (dict_getitem (class_data self) other_class);
    other ← lift (choice (elements items) (advance 1 rnd));
    o ← lift (data_getitem self other);
    x ← lift (field h o (data_key_left self));
    setitem base_item (data_key_right self) x;;
    setitem base_item (label_key self) (of_int 0);;
    mret base_item.

(** [self.data[index][self.data_key_left]]. *)
Definition left_of (h : gmap loc (gmap string V)) (self : dataset)
    (index : Z) : result V :=
  elem ← data_getitem self index;
  field h elem (data_key_left self).

(** The loop over [classes[1:]] of [one_shot_trial]. *)
Fixpoint others (h : gmap loc (gmap string V)) (self : dataset)
    (classes : list V) (rnd : tape) : result (list V) :=
  match classes with
  | [] => Ok []
  | clazz :: rest =>
      items ← dict_getitem (class_data self) clazz;
      index ← choice (elements items) rnd;
      x ← left_of h self index;
      xs ← others h self rest (advance 1 rnd);
      Ok (x :: xs)
  end.

Definition one_shot_trial (h : gmap loc (gmap string V)) (self : dataset)
    (rnd : tape) (n : Z) : result (list V * list V) :=
  if negb (1 <? n) then Raise AssertionError
  else
    let keys := elements (dom (class_data self)) in
    if negb (n <=? Z.of_nat (length keys)) then Raise AssertionError
    else
      classes ← choice_no_replace keys (Z.to_nat n) rnd;
      let rnd := advance (Z.to_nat n) rnd in
      clazz ← list_getitem classes 0;
      items ← dict_getitem (class_data self) clazz;
      base_image_indices ← choice_no_replace (elements items) 2 rnd;
      let rnd := advance 2 rnd in
      i0 ← list_getitem base_image_indices 0;
      x0 ← left_of h self i0;
      i1 ← list_getitem base_image_indices 1;
      x1 ← left_of h self i1;
      xs ← others h self (drop 1 classes) rnd;
      Ok (replicate (Z.to_nat n) x0, x1 :: xs).

End Dataset.

End Siamese.

(** ** The properties, as predicates on the model *)

Module Props.
Import FE Siamese.

(** The exceptions the checks at the head of [split] raise: a failed
    [assert], the [ValueError] for a descriptor of another type, and what
    [math.ceil] raises on a product that is not finite. *)
Definition validation_error (e : exn) : bool :=
  match e with
  | AssertionError | ValueError | OverflowError => true
  | IndexError | KeyError => false
  end.

(** The count one descriptor resolves to. *)
Definition count_of (original_size : Z) (frac : descriptor) : result Z :=
  match frac with
  | DFloat f => ceil_of original_size f
  | DInt n => Ok n
  | DOther => Raise ValueError
  end.

(** The sum of the float descriptors, added from the left to [frac_sum]. *)
Definition sum_fractions (fractions : list descriptor) (frac_sum : float)
  : float :=
  foldl (fun s d => match d with DFloat f => (s + f)%float | _ => s end)
        frac_sum fractions.

Definition sum_counts (n_samples : list Z) : Z := foldr Z.add 0 n_samples.

(** The ways a call of [split] on a dataset of length [original_size] can
    break a precondition. *)
Inductive violation (original_size : Z) (fractions : list descriptor)
    (method : string) : Prop :=
| no_descriptor :
    fractions = [] -> violation original_size fractions method
| unknown_method :
    method ∉ split_types -> violation original_size fractions method
| not_float_or_int :
    DOther ∈ fractions -> violation original_size fractions method
| fraction_sum :
    (sum_fractions fractions 0 <? 1)%float = false ->
    violation original_size fractions method
| count_sum n_samples :
    for_each (count_of original_size) fractions = Ok n_samples ->
    original_size ≤ sum_counts n_samples ->
    violation original_size fractions method.

(** The datasets a result of [split] holds. *)
Definition produced {D} (r : split_result D) : list D :=
  match r with One d => [d] | Many ds => ds end.

Section Dataset.
Context {V : Type} `{Countable V}.
Implicit Types (h : gmap loc (gmap string V)) (self : dataset (V:=V)).
Implicit Types (cd : gmap V (gset Z)).

(** The record keys of a dataset are [0..len-1], in this order. *)
Definition contiguous self : Prop :=
  (data self).*1 = seqZ 0 (Z.of_nat (length (data self))).

(** [idx] is in the index set of class [c]. *)
Definition member cd (c : V) (idx : Z) : Prop :=
  ∃ items, cd !! c = Some items ∧ idx ∈ items.

(** The class index: its sets cover the record indices, and no index is
    in the sets of two classes. *)
Definition class_index self : Prop :=
  (∀ idx, idx ∈ (data self).*1 ↔ ∃ c, member (class_data self) c idx) ∧
  (∀ c1 c2 items1 items2,
     c1 ≠ c2 -> class_data self !! c1 = Some items1 ->
     class_data self !! c2 = Some items2 -> items1 ## items2).

(** Record [idx] of [data] carries the label [c]. *)
Definition labelled h (label_key : string) (data : list (Z * loc))
    (c : V) (idx : Z) : Prop :=
  ∃ elem, (idx, elem) ∈ data ∧ field h elem label_key = Ok c.

(** A dataset as [_do_split] leaves it: contiguous keys, and the class
    index computed from its records. *)
Definition rebuilt h self : Prop :=
  contiguous self ∧
  data_to_class h (data self) (label_key self) = Ok (class_data self).

(** A dataset as its constructor and [_do_split] build it, over records
    that are in the store and hold the data key. *)
Record wf h self : Prop := {
  wf_keys : NoDup (data self).*1;
  wf_class_data :
    data_to_class h (data self) (label_key self) = Ok (class_data self);
  wf_alloc : ∀ idx elem, (idx, elem) ∈ data self -> elem ∈ dom h;
  wf_left : ∀ idx elem, (idx, elem) ∈ data self ->
                        is_Some ((h !!! elem) !! data_key_left self);
}.

(** [wf], decided. *)
Definition wfb h self : bool :=
  bool_decide (NoDup (data self).*1)
  && match data_to_class h (data self) (label_key self) with
     | Ok cd => bool_decide (cd = class_data self)
     | Raise _ => false
     end
  && forallb (fun '(_, elem) =>
                bool_decide (elem ∈ dom h)
                && bool_decide (is_Some ((h !!! elem) !! data_key_left self)))
             (data self).

(** The three keys of a dataset are three different keys. *)
Definition distinct_keys self : Prop :=
  data_key_left self ≠ data_key_right self ∧
  data_key_left self ≠ label_key self ∧
  data_key_right self ≠ label_key self.

(** Whether the branch [__getitem__] takes has something to sample: another
    instance of the class when matching, another class otherwise. *)
Definition has_partner self (c : V) (items : gset Z) (index : Z)
    (matching : bool) : Prop :=
  if matching then items ∖ {[index]} ≠ ∅
  else dom (class_data self) ∖ {[c]} ≠ ∅.

(** [x] is the data value of an instance of class [c]. *)
Definition instance_of h self (c : V) (x : V) : Prop :=
  ∃ idx, member (class_data self) c idx ∧ left_of h self idx = Ok x.

End Dataset.

End Props.

(** ** Concrete datasets *)

Module Examples.
Import FE Siamese.

(** Field values: integers (labels) and strings (file paths). *)
Inductive value : Set :=
| VInt (z : Z)
| VStr (s : string).

#[global] Instance value_eq_dec : EqDecision value.
Proof. solve_decision. Defined.

Definition value_to_sum (v : value) : Z + string :=
  match v with VInt z => inl z | VStr s => inr s end.

Definition value_of_sum (x : Z + string) : value :=
  match x with inl z => VInt z | inr s => VStr s end.

#[global] Instance value_countable : Countable value :=
  inj_countable' value_to_sum value_of_sum
    (fun v => match v with VInt _ => eq_refl | VStr _ => eq_refl end).

(** Integers by value, strings by their characters, integers first. *)
Definition value_le (v w : value) : Prop :=
  match v, w with
  | VInt a, VInt b => a ≤ b
  | VStr a, VStr b => String.leb a b = true
  | VInt _, VStr _ => True
  | VStr _, VInt _ => False
  end.

#[global] Instance value_le_dec : RelDecision value_le.
Proof. intros [a|a] [b|b]; simpl; apply _. Defined.

(** The record of the [i]-th file of a scan, labelled [y]. *)
Definition record_of (i : nat) (y : Z) : gmap string value :=
  <["x_a" := VStr (String (Ascii.ascii_of_nat (97 + i)) EmptyString)]>
    (<["y" := VInt y]> ∅).

(** The store and the index to record mapping after scanning files with
    the given labels. *)
Definition scan_heap (labels : list Z) : gmap loc (gmap string value) :=
  list_to_map (imap (fun i y => (Pos.of_succ_nat i, record_of i y)) labels).

Definition scan_data (labels : list Z) : list (Z * loc) :=
  imap (fun i (_ : Z) => (Z.of_nat i, Pos.of_succ_nat i)) labels.

(** The dataset the constructor builds from such a scan, with the default
    keys and matching percentage. *)
Definition load (labels : list Z) : dataset (V := value) :=
  match init (scan_heap labels) (scan_data labels) "x_a" "x_b" "y" 0.5 with
  | Ok self => self
  | Raise _ => Dataset [] ∅ 0 EmptyString EmptyString EmptyString
  end.

(** Ten records in two classes of five. *)
Definition two_classes : list Z := [0; 0; 0; 0; 0; 1; 1; 1; 1; 1].
(** Eleven records in ten classes. *)
Definition ten_classes : list Z := [0; 0; 1; 2; 3; 4; 5; 6; 7; 8; 9].
(** Three records: a class of one and a class of two. *)
Definition one_and_two : list Z := [0; 1; 1].
(** Two records in one class. *)
Definition one_class : list Z := [0; 0].

(** The split operation of the dataset over the scan of [labels]. *)
Definition split_of (labels : list Z) (rnd : tape)
    (fractions : list descriptor) (method : string)
  : result (split_result (dataset (V := value))) * dataset (V := value) :=
  split (H := siamese_dataset value_le (scan_heap labels))
        rnd fractions method (load labels).

(** The number of classes of each produced dataset and of the source. *)
Definition class_counts
    (r : result (split_result (dataset (V := value))) * dataset (V := value))
  : result (list Z) * Z :=
  (fmap (M := result) (fun res => split_length <$> Props.produced res) r.1,
   split_length r.2).

(** The datasets a call returned, none when it raised. *)
Definition returned
    (r : result (split_result (dataset (V := value))) * dataset (V := value))
  : split_result (dataset (V := value)) :=
  match r.1 with Ok res => res | Raise _ => Many [] end.

(** Tapes whose every raw draw is 0, and 1. *)
Definition zeros : tape := fun _ => O.
Definition ones : tape := fun _ => 1%nat.

(** Three records, each in a class of its own. *)
Definition singletons : list Z := [0; 1; 2].

(** [split(1, method="from_front")] on the ten records in two classes. *)
Definition front_split
  : result (split_result (dataset (V := value))) * dataset (V := value) :=
  split_of two_classes zeros [DInt 1] "from_front".

End Examples.

(** ** What a split moves, as predicates on the model *)

Module MoveDefs.
Import FE Siamese.

(** The labels a generator of class ordinals selects from the sorted
    labels: [int_class_keys[i] for i in split]. *)
Definition selected {V} (keys : list V) (g : gen) : result (list V) :=
  gen_for_each (list_getitem keys) g.

Section Dataset.
Context {V : Type} `{Countable V}.
Implicit Types (h : gmap loc (gmap string V)) (self : dataset (V:=V)).

(** The records of [r] are the records of [self] labelled with one of
    [cs]. *)
Definition holds_classes h self (cs : list V) (r : dataset (V:=V)) : Prop :=
  ∀ elem, elem ∈ (data r).*2 ↔
          elem ∈ (data self).*2 ∧
          ∃ c, c ∈ cs ∧ field h elem (label_key self) = Ok c.

(** The records of [r] are the records of [self] labelled with none of
    [cs]. *)
Definition holds_others h self (cs : list V) (r : dataset (V:=V)) : Prop :=
  ∀ elem, elem ∈ (data r).*2 ↔
          elem ∈ (data self).*2 ∧
          ∃ c, (c ∉ cs) ∧ field h elem (label_key self) = Ok c.

(** [self] after the classes [taken] were split off it: the class index
    and the label key untouched, the records of the other classes left
    under their keys. *)
Definition remains h self (taken : list V) (s : dataset (V:=V)) : Prop :=
  class_data s = class_data self ∧ label_key s = label_key self ∧
  NoDup (data s).*1 ∧
  ∀ idx elem, (idx, elem) ∈ data s ↔
              (idx, elem) ∈ data self ∧
              ∃ c, (c ∉ taken) ∧ field h elem (label_key self) = Ok c.

End Dataset.

End MoveDefs.

(** ** google_download_util.py *)

Module Download.

(** [key.startswith('download_warning')]. *)
Definition is_warning (key : string) : bool :=
  String.prefix "download_warning" key.

(** [_get_confirm_token], on the (name, value) pairs
    [response.cookies.items()] yields; [None] is the Python [None]. *)
Fixpoint get_confirm_token (cookies : list (string * string))
  : option string :=
  match cookies with
  | [] => None
  | (key, value) :: rest =>
      if is_warning key then Some value else get_confirm_token rest
  end.

(** How the body of the [try] of one round of
    [download_file_from_google_drive] ends: the file was downloaded and
    [validate_file] returned true, or returned false, or the download or
    the check raised an [Exception], or raised an exception that is not
    one (a [KeyboardInterrupt]), which the [except Exception] clause does
    not catch. What the download and the check do to the network and the
    disk is outside the sources: the outcome of each round is given. *)
Inductive outcome : Set := Valid | Invalid | Failed | Interrupted.

(** What the function does to the outside: a download started, or a sleep
    of so many seconds. The messages it prints are left out. *)
Inductive event : Set := Started | Slept (seconds : Z).

(** How the loop ends: by [break] with [found] set, by exhausting the
    range, or with the exception that got through. *)
Inductive loop_end : Set := Found | Exhausted | Escaped.

(** How the call ends. *)
Inductive call_end : Set := Returned | RaisedValueError | Propagated.

(** [random.randint(a, b)], both ends included. *)
Definition randint (a b : Z) (rnd : tape) : Z :=
  a + Z.of_nat (rnd O) `mod` (b - a + 1).

(** The loop [for _ in range(max_retries)], [n] rounds to go, [k] rounds
    done. *)
Fixpoint rounds (attempt : nat -> outcome) (k n : nat) (rnd : tape)
  : loop_end * list event :=
  match n with
  | O => (Exhausted, [])
  | S n' =>
      match attempt k with
      | Valid => (Found, [Started])
      | Invalid | Failed =>
          let '(e, trace) := rounds attempt (S k) n' (advance 1 rnd) in
          (e, Started :: Slept (randint 5 10 rnd) :: trace)
      | Interrupted => (Escaped, [Started])
      end
  end.

Definition download_file_from_google_drive (attempt : nat -> outcome)
    (max_retries : Z) (rnd : tape) : call_end * list event :=
  match rounds attempt 0 (Z.to_nat max_retries) rnd with
  | (Found, trace) => (Returned, trace)
  | (Exhausted, trace) => (RaisedValueError, trace)
  | (Escaped, trace) => (Propagated, trace)
  end.

(** The downloads started and the seconds slept in a trace. *)
Definition downloads (trace : list event) : nat :=
  length (List.filter
            (fun e => match e with Started => true | Slept _ => false end)
            trace).

Definition sleeps (trace : list event) : list Z :=
  omap (fun e => match e with Slept s => Some s | Started => None end) trace.

(** A round that ends in a way the loop goes on from. *)
Definition retried (o : outcome) : Prop := o = Invalid ∨ o = Failed.

End Download.

(** ** Facts about the runtime *)

Module PyFacts.

Lemma for_each_ok {A B} (f : A -> result B) (g : A -> B) l :
  (∀ x, x ∈ l -> f x = Ok (g x)) -> for_each f l = Ok (g <$> l).
Proof.
  induction l as [|a l IH]; intros Hf; simpl; [done|].
  rewrite (Hf a) by (apply elem_of_cons; by left). simpl.
  rewrite IH; [done|]. intros x Hx. apply Hf, elem_of_cons. by right.
Qed.

(** A loop whose body raises on some element raises. *)
Lemma for_each_raise {A B} (f : A -> result B) l x e :
  x ∈ l -> f x = Raise e -> ∃ e', for_each f l = Raise e'.
Proof.
  intros Hx Hf. induction l as [|a l IH]; [by apply elem_of_nil in Hx|].
  simpl. destruct (f a) as [b|e'] eqn:Ha; [|by exists e'].
  apply elem_of_cons in Hx as [->|Hx]; [congruence|].
  destruct (IH Hx) as [e' ->]. by exists e'.
Qed.

(** What a loop raises, its body raised on an element. *)
Lemma for_each_raised {A B} (f : A -> result B) l e :
  for_each f l = Raise e -> ∃ y, y ∈ l ∧ f y = Raise e.
Proof.
  induction l as [|a l IH]; simpl; [done|].
  destruct (f a) as [b|e'] eqn:Ha; simpl.
  - destruct (for_each f l) as [bs|e'] eqn:Hl; simpl; [done|].
    intros [= ->]. destruct (IH eq_refl) as (y & Hy & Hfy).
    exists y. split; [by apply elem_of_cons; right|done].
  - intros [= ->]. exists a. split; [apply elem_of_cons; by left|done].
Qed.

Lemma list_getitem_ok {A} (l : list A) (i : Z) x :
  0 ≤ i -> l !! Z.to_nat i = Some x -> list_getitem l i = Ok x.
Proof.
  intros Hi Hx. unfold list_getitem.
  pose proof (lookup_lt_Some _ _ _ Hx) as Hlt.
  destruct (i <? 0) eqn:E; [lia|].
  destruct (i <? 0) eqn:E1; [lia|]. simpl.
  destruct (Z.of_nat (length l) <=? i) eqn:E2; [lia|]. by rewrite Hx.
Qed.

Lemma list_getitem_0 {A} (x : A) l : list_getitem (x :: l) 0 = Ok x.
Proof. apply list_getitem_ok; [lia|reflexivity]. Qed.

(** [math.ceil] of a finite float [m * 2^e] is the least integer that is
    not below it. *)
Lemma ceil_finite (x : float) s m e :
  Prim2SF x = S754_finite s m e ->
  let v := if s then Z.neg m else Z.pos m in
  ∃ c, ceil x = Ok c ∧
       (0 ≤ e -> c = v * 2 ^ e) ∧
       (e < 0 -> (c - 1) * 2 ^ (- e) < v ≤ c * 2 ^ (- e)).
Proof.
  intros Hx v. unfold ceil. rewrite Hx. cbv zeta. fold v.
  destruct (0 <=? e) eqn:He.
  - exists (v * 2 ^ e). split_and!; [reflexivity|done|lia].
  - exists (- ((- v) `div` 2 ^ (- e))). split_and!; [reflexivity|lia|].
    intros He'.
    assert (0 < 2 ^ (- e)) as Hp by (apply Z.pow_pos_nonneg; lia).
    pose proof (Z.mul_div_le (- v) _ Hp).
    pose proof (Z.mul_succ_div_gt (- v) _ Hp). nia.
Qed.

Lemma delete_middle {A} (pool : list A) j x :
  pool !! j = Some x ->
  pool = take j pool ++ x :: drop (S j) pool ∧
  delete j pool = take j pool ++ drop (S j) pool.
Proof.
  intros Hj. split; [by rewrite take_drop_middle|apply delete_take_drop].
Qed.

Lemma length_draw {A} (pool : list A) k rnd :
  (k ≤ length pool)%nat -> length (draw pool k rnd) = k.
Proof.
  revert pool rnd. induction k as [|k IH]; intros pool rnd Hk; simpl; [done|].
  assert (rnd O `mod` length pool < length pool)%nat as Hj
    by (apply Nat.mod_upper_bound; lia).
  destruct (lookup_lt_is_Some_2 _ _ Hj) as [x Hx]. rewrite Hx. simpl.
  rewrite IH; [done|]. rewrite length_delete by eauto. lia.
Qed.

Lemma draw_subseteq {A} (pool : list A) k rnd : draw pool k rnd ⊆ pool.
Proof.
  revert pool rnd. induction k as [|k IH]; intros pool rnd; simpl.
  - apply list_subseteq_nil.
  - destruct (pool !! _) as [x|] eqn:Hx; [|apply list_subseteq_nil].
    intros y [->|Hy]%elem_of_cons.
    + by eapply list_elem_of_lookup_2.
    + apply IH in Hy. by eapply list_elem_of_delete_inv.
Qed.

(** Nothing is drawn twice. *)
Lemma NoDup_draw {A} (pool : list A) k rnd :
  NoDup pool -> NoDup (draw pool k rnd).
Proof.
  revert pool rnd. induction k as [|k IH]; intros pool rnd Hnd; simpl.
  - constructor.
  - destruct (pool !! _) as [x|] eqn:Hx; [|constructor].
    destruct (delete_middle _ _ _ Hx) as [Hpool Hdel].
    rewrite Hpool in Hnd. apply NoDup_app in Hnd as (Ht & Hdisj & Hd).
    apply NoDup_cons in Hd as [Hxd Hd].
    constructor.
    + intros Hin. apply draw_subseteq in Hin. rewrite Hdel in Hin.
      apply elem_of_app in Hin as [Hin|Hin]; [|done].
      eapply Hdisj; [done|]. apply elem_of_cons. by left.
    + apply IH. rewrite Hdel. apply NoDup_app. split_and!; [done| |done].
      intros y Hy Hy'. eapply Hdisj; [done|]. apply elem_of_cons. by right.
Qed.

(** Every arrangement without repetition is the outcome of some tape. *)
Lemma draw_complete {A} (target pool : list A) :
  NoDup target -> target ⊆ pool ->
  ∃ rnd, draw pool (length target) rnd = target.
Proof.
  revert pool. induction target as [|x t IH]; intros pool Hnd Hsub; simpl.
  - by exists (fun _ => O).
  - apply NoDup_cons in Hnd as [Hx Hnd].
    assert (x ∈ pool) as Hxp by (apply Hsub, elem_of_cons; by left).
    apply list_elem_of_lookup_1 in Hxp as [j Hj].
    destruct (delete_middle _ _ _ Hj) as [Hpool Hdel].
    destruct (IH (delete j pool) Hnd) as [rnd' Hrnd'].
    { intros y Hy.
      assert (y ∈ pool) as Hyp by (apply Hsub, elem_of_cons; by right).
      rewrite Hpool in Hyp. rewrite Hdel.
      apply elem_of_app in Hyp as [?|[->|?]%elem_of_cons]; [| done |];
        apply elem_of_app; auto. }
    exists (fun i => match i with O => j | S i' => rnd' i' end). simpl.
    rewrite Nat.mod_small by (by eapply lookup_lt_Some).
    rewrite Hj. f_equal. exact Hrnd'.
Qed.

Lemma choice_ok {A} (a : list A) rnd :
  a ≠ [] -> ∃ x, choice a rnd = Ok x ∧ x ∈ a.
Proof.
  intros Ha. unfold choice.
  assert (rnd O `mod` length a < length a)%nat as Hj.
  { apply Nat.mod_upper_bound. destruct a; [done|simpl; lia]. }
  destruct (lookup_lt_is_Some_2 _ _ Hj) as [x Hx]. rewrite Hx.
  exists x. split; [done|]. by eapply list_elem_of_lookup_2.
Qed.

(** Every element can be chosen. *)
Lemma choice_complete {A} (a : list A) x :
  x ∈ a -> ∃ rnd, choice a rnd = Ok x.
Proof.
  intros [j Hj]%list_elem_of_lookup_1. exists (fun _ => j). unfold choice.
  rewrite Nat.mod_small by (by eapply lookup_lt_Some). by rewrite Hj.
Qed.

End PyFacts.

(** ** Facts about [split] *)

Module SplitFacts.
Import FE Props PyFacts.

Lemma count_of_raise original_size frac e :
  count_of original_size frac = Raise e -> validation_error e = true.
Proof.
  destruct frac as [f|n|]; simpl; [|done|by intros [= <-]].
  unfold ceil_of, float_of_int.
  destruct (is_infinity _); simpl; [by intros [= <-]|].
  unfold ceil. destruct (Prim2SF _); simpl; try done; by intros [= <-].
Qed.

(** The loop resolves one descriptor after the other. *)
Lemma resolve_spec original_size fractions frac_sum int_sum n_samples :
  resolve original_size fractions frac_sum int_sum n_samples =
  ns ← for_each (count_of original_size) fractions;
  Ok (sum_fractions fractions frac_sum, int_sum + sum_counts ns,
      n_samples ++ ns).
Proof.
  revert frac_sum int_sum n_samples.
  induction fractions as [|frac rest IH]; intros frac_sum int_sum n_samples.
  - simpl. by rewrite Z.add_0_r, app_nil_r.
  - destruct frac as [f|n|]; simpl; [| |done].
    + destruct (ceil_of original_size f) as [n|e]; simpl; [|done].
      rewrite IH. destruct (for_each _ rest) as [ns|e]; simpl; [|done].
      by rewrite <- app_assoc, Z.add_assoc.
    + rewrite IH. destruct (for_each _ rest) as [ns|e]; simpl; [|done].
      by rewrite <- app_assoc, Z.add_assoc.
Qed.

Lemma validate_raises original_size fractions method :
  violation original_size fractions method ->
  ∃ e, validate original_size fractions method = Raise e ∧
       validation_error e = true.
Proof.
  intros Hv. unfold validate.
  case_bool_decide as Hlen; [by exists AssertionError|].
  case_bool_decide as Hm; simpl; [|by exists AssertionError].
  rewrite resolve_spec.
  destruct (for_each (count_of original_size) fractions) as [ns|e] eqn:Hns;
    simpl.
  2:{ exists e. split; [done|].
      apply for_each_raised in Hns as (y & _ & Hy). by eapply count_of_raise. }
  destruct (sum_fractions fractions 0 <? 1)%float eqn:Hfs; simpl;
    [|by exists AssertionError].
  destruct (0 + sum_counts ns <? original_size) eqn:Hcs; simpl;
    [|by exists AssertionError].
  exfalso. destruct Hv as [->| Hm' | Hd | Hf | ns' Hns' Hle].
  - done.
  - done.
  - destruct (for_each_raise (count_of original_size) fractions DOther
                ValueError Hd eq_refl) as [e' He']. congruence.
  - congruence.
  - rewrite Hns in Hns'. injection Hns' as <-. lia.
Qed.

Lemma validate_ok original_size fractions method int_sum n_samples :
  validate original_size fractions method = Ok (int_sum, n_samples) ->
  method ∈ split_types ∧
  for_each (count_of original_size) fractions = Ok n_samples ∧
  int_sum = sum_counts n_samples ∧ int_sum < original_size.
Proof.
  unfold validate. case_bool_decide; [done|].
  case_bool_decide as Hm; simpl; [|done].
  rewrite resolve_spec.
  destruct (for_each _ fractions) as [ns|e]; simpl; [|done].
  destruct (_ <? 1)%float; simpl; [|done].
  destruct (0 + sum_counts ns <? original_size) eqn:Hlt; simpl; [|done].
  intros [= <- <-]. split_and!; [done|done|lia|lia].
Qed.

Lemma sum_counts_nonneg n_samples :
  Forall (fun n => 0 ≤ n) n_samples -> 0 ≤ sum_counts n_samples.
Proof. induction 1; simpl; lia. Qed.

(** Consumed, a generator over a range inside the pool yields that slice
    of the pool. *)
Lemma consume_slice (indices : list Z) (start n : Z) :
  0 ≤ start -> 0 ≤ n -> start + n ≤ Z.of_nat (length indices) ->
  consume (Gen indices start (start + n)) =
  Ok (take (Z.to_nat n) (drop (Z.to_nat start) indices)).
Proof.
  intros Hs Hn Hle. unfold consume, gen_for_each, range. simpl.
  replace (start + n - start) with n by lia.
  rewrite (for_each_ok _ (fun i' => indices !!! Z.to_nat i')).
  - f_equal. apply list_eq. intros k.
    rewrite list_lookup_fmap.
    destruct (decide (Z.of_nat k < n)) as [Hk|Hk].
    + rewrite lookup_seqZ_lt by done. simpl.
      rewrite lookup_take_lt by lia. rewrite lookup_drop.
      replace (Z.to_nat (start + Z.of_nat k))
        with (Z.to_nat start + k)%nat by lia.
      destruct (lookup_lt_is_Some_2 indices (Z.to_nat start + k))
        as [x Hx]; [lia|].
      rewrite Hx. f_equal. by apply list_lookup_total_correct.
    + rewrite lookup_seqZ_ge by lia. simpl.
      symmetry. apply lookup_ge_None. rewrite length_take. lia.
  - intros i' [Hi1 Hi2]%elem_of_seqZ.
    destruct (lookup_lt_is_Some_2 indices (Z.to_nat i')) as [x Hx]; [lia|].
    rewrite (list_getitem_ok _ _ x) by (done || lia). simpl.
    f_equal. symmetry. by apply list_lookup_total_correct.
Qed.

Lemma slices_spec (indices : list Z) (n_samples : list Z) (start : Z) :
  Forall (fun n => 0 ≤ n) n_samples -> 0 ≤ start ->
  start + sum_counts n_samples ≤ Z.of_nat (length indices) ->
  ∃ parts,
    for_each consume (slices indices start n_samples) = Ok parts ∧
    concat parts =
      take (Z.to_nat (sum_counts n_samples)) (drop (Z.to_nat start) indices) ∧
    Forall2 (fun part n => Z.of_nat (length part) = n) parts n_samples.
Proof.
  intros Hnn. revert start.
  induction Hnn as [|n ns Hn Hns IH]; intros start Hs Hle; simpl in *.
  - exists []. by rewrite take_0.
  - pose proof (sum_counts_nonneg _ Hns) as Hsum.
    destruct (IH (start + n)) as (parts & Hparts & Hcat & Hlen); [lia|lia|].
    exists (take (Z.to_nat n) (drop (Z.to_nat start) indices) :: parts).
    rewrite consume_slice by lia. simpl. rewrite Hparts. simpl.
    split_and!; [done| |].
    + rewrite Hcat, (Z2Nat.inj_add n (sum_counts ns)) by lia.
      rewrite (Z2Nat.inj_add start n) by lia.
      rewrite <- drop_drop. apply take_take_drop.
    + constructor; [|done]. rewrite length_take, length_drop. lia.
Qed.

(** A call that returns went through [_do_split], and returns datasets
    [_do_split] produced. *)
Lemma split_ok `{FEDataset D} rnd fractions method (self self' : D) res :
  split rnd fractions method self = (Ok res, self') ->
  ∃ splits results,
    do_split splits self = (Ok results, self') ∧ produced res ⊆ results.
Proof.
  unfold split, mbind at 1 2 3, M_bind, get, lift.
  destruct (validate _ _ _) as [[int_sum n_samples]|e]; [|done].
  destruct (select_indices _ _ _ _) as [indices|e]; [|done].
  unfold mbind, M_bind.
  destruct (do_split _ self) as [[results|e] s] eqn:Hd; [|done].
  case_bool_decide.
  - unfold lift. destruct (list_getitem results 0) as [d|e] eqn:Hg; [|done].
    intros [= <- <-]. eexists _, results. split; [done|].
    intros x ->%list_elem_of_singleton.
    unfold list_getitem in Hg. simpl in Hg.
    destruct (_ <=? 0); [done|]. simpl in Hg.
    destruct results as [|d' ?]; [done|]. injection Hg as ->.
    apply elem_of_cons. by left.
  - intros [= <- <-]. by eexists _, results.
Qed.

End SplitFacts.

(** ** [split]: validation and index selection *)

Module SplitProps.
Import FE Props PyFacts SplitFacts.

Section Split.
Context `{FEDataset D}.

(** C2. A call of [split] that breaks a precondition (no descriptor, a
    strategy that is none of the three, a descriptor that is neither float
    nor int, a fraction sum that is not below 1.0, a count sum that is not
    below the length [len(self)]) raises one of the validation exceptions,
    and the dataset it leaves is the dataset it was given: nothing was
    mutated, whatever [_do_split] the dataset has. *)
Theorem split_fails_before_mutation (rnd : tape)
    (fractions : list descriptor) (method : string) (self : D) :
  violation (len self) fractions method ->
  ∃ e, split rnd fractions method self = (Raise e, self) ∧
       validation_error e = true.
Proof.
  intros Hv. destruct (validate_raises _ _ _ Hv) as (e & He & Hve).
  exists e. split; [|done].
  unfold split, mbind, M_bind, get, lift. by rewrite He.
Qed.

(** C8. For a call that passes validation with counts that are not
    negative: the index pool has [sum(counts)] entries; with [from_front]
    its [k]-th entry is [k]; with [from_back] its [k]-th entry is
    [len - 1 - k]; with [random] it is free of duplicates, inside
    [range(len)], and every such sequence is the pool for some tape of
    draws; the generators handed to [_do_split] yield, in descriptor order,
    consecutive slices of the pool, one per descriptor and of its count. *)
Theorem split_selects (rnd : tape) (fractions : list descriptor)
    (method : string) (self : D) (int_sum : Z) (n_samples : list Z) :
  validate (len self) fractions method = Ok (int_sum, n_samples) ->
  Forall (fun n => 0 ≤ n) n_samples ->
  ∃ indices parts,
    select_indices method (len self) int_sum rnd = Ok indices ∧
    int_sum = sum_counts n_samples ∧
    Z.of_nat (length indices) = int_sum ∧
    (method = "from_front" ->
     ∀ k : nat, (k < length indices)%nat ->
                indices !! k = Some (Z.of_nat k)) ∧
    (method = "from_back" ->
     ∀ k : nat, (k < length indices)%nat ->
                indices !! k = Some (len self - 1 - Z.of_nat k)) ∧
    (method = "random" ->
     NoDup indices ∧ (∀ i, i ∈ indices -> 0 ≤ i < len self) ∧
     ∀ target, NoDup target -> Z.of_nat (length target) = int_sum ->
               (∀ i, i ∈ target -> 0 ≤ i < len self) ->
               ∃ rnd', select_indices method (len self) int_sum rnd'
                       = Ok target) ∧
    for_each consume (slices indices 0 n_samples) = Ok parts ∧
    concat parts = indices ∧
    Forall2 (fun part n => Z.of_nat (length part) = n) parts n_samples ∧
    split rnd fractions method self =
      (splits ← do_split (slices indices 0 n_samples);
       if bool_decide (length fractions = 1%nat) then
         d ← lift (list_getitem splits 0); mret (One d)
       else mret (Many splits)) self.
Proof.
  intros Hv Hnn.
  destruct (validate_ok _ _ _ _ _ Hv) as (Hm & _ & Hsum & Hlt).
  pose proof (sum_counts_nonneg _ Hnn) as H0. rewrite <- Hsum in H0.
  assert (∃ indices,
             select_indices method (len self) int_sum rnd = Ok indices ∧
             Z.of_nat (length indices) = int_sum) as (indices & Hsel & Hlen).
  { unfold select_indices, random_sample, range, range_down.
    repeat case_bool_decide; eexists; (split; [try reflexivity|]).
    - rewrite length_seqZ.
      destruct (int_sum <? 0) eqn:E1; [exfalso; lia|].
      destruct (Z.of_nat (Z.to_nat (len self - 0)) <? int_sum) eqn:E2;
        [exfalso; apply Z.ltb_lt in E2; lia|].
      simpl. reflexivity.
    - rewrite length_draw; [lia|]. rewrite length_seqZ. lia.
    - rewrite length_seqZ. lia.
    - rewrite length_fmap, length_seqZ. lia.
    - exfalso. unfold split_types in Hm.
      repeat (apply elem_of_cons in Hm as [?|Hm]; [done|]).
      by apply elem_of_nil in Hm. }
  destruct (slices_spec indices n_samples 0 Hnn)
    as (parts & Hparts & Hcat & Hlens); [lia|lia|].
  exists indices, parts. split_and!; try done.
  - intros ->. intros k Hk. unfold select_indices, range in Hsel.
    simpl in Hsel. injection Hsel as <-. rewrite length_seqZ in Hk.
    rewrite lookup_seqZ_lt by lia. f_equal; lia.
  - intros ->. intros k Hk. unfold select_indices, range_down in Hsel.
    simpl in Hsel. injection Hsel as <-.
    rewrite length_fmap, length_seqZ in Hk.
    rewrite list_lookup_fmap, lookup_seqZ_lt by lia. simpl. f_equal; lia.
  - intros ->. unfold select_indices, random_sample, range in *. simpl in *.
    rewrite length_seqZ in *.
    destruct (int_sum <? 0) eqn:E1; [exfalso; lia|].
    destruct (Z.of_nat (Z.to_nat (len self - 0)) <? int_sum) eqn:E2;
      [exfalso; apply Z.ltb_lt in E2; lia|].
    simpl in *. injection Hsel as <-. split_and!.
    + apply NoDup_draw, NoDup_seqZ.
    + intros i Hi. apply draw_subseteq, elem_of_seqZ in Hi. lia.
    + intros target Hnd Hl Hr.
      destruct (draw_complete target (seqZ 0 (len self - 0)) Hnd)
        as [rnd' Hrnd'].
      { intros i Hi. apply elem_of_seqZ. specialize (Hr i Hi). lia. }
      exists rnd'. f_equal. rewrite <- Hl, Nat2Z.id. exact Hrnd'.
  - rewrite Hcat. rewrite drop_0. apply take_ge. lia.
  - unfold split, mbind at 1 2 3, M_bind, get, lift. rewrite Hv. simpl.
    rewrite Hsel. reflexivity.
Qed.

End Split.

End SplitProps.

(** ** Facts about the class index and [_do_split] *)

Module ClassFacts.
Import FE Siamese Props PyFacts SplitFacts.

(** What holds of each result of the body holds of the results of the
    loop. *)
Lemma for_each_M_Forall {S A B} (f : A -> M S B) (Q : B -> Prop) l :
  (∀ x s y s', f x s = (Ok y, s') -> Q y) ->
  ∀ s ys s', for_each_M f l s = (Ok ys, s') -> Forall Q ys.
Proof.
  intros Hf. induction l as [|a l IH]; intros s ys s'; simpl.
  - intros [= <- <-]. constructor.
  - unfold mbind, M_bind. destruct (f a s) as [[y|e] s1] eqn:Ha; [|done].
    destruct (for_each_M f l s1) as [[ys'|e] s2] eqn:Hl; [|done].
    intros [= <- <-]. constructor; eauto.
Qed.

Lemma fst_enumerate {A} (l : list A) start :
  (enumerate start l).*1 = seqZ start (Z.of_nat (length l)).
Proof.
  revert start. induction l as [|x l IH]; intros start; [done|].
  cbn [enumerate fmap list_fmap length]. rewrite seqZ_cons by lia.
  simpl. f_equal. rewrite IH. f_equal; lia.
Qed.

Lemma length_enumerate {A} (l : list A) start :
  length (enumerate start l) = length l.
Proof. revert start. induction l; intros; simpl; [done|by f_equal]. Qed.

Lemma items_get_elem_of {A} (d : list (Z * A)) k v :
  items_get d k = Some v -> (k, v) ∈ d.
Proof.
  induction d as [|[k' v'] d IH]; simpl; [done|].
  case_bool_decide as Hk.
  - intros [= ->]. subst. apply elem_of_cons. by left.
  - intros Hg. apply elem_of_cons. right. auto.
Qed.

Lemma elem_of_items_get {A} (d : list (Z * A)) k v :
  NoDup d.*1 -> (k, v) ∈ d -> items_get d k = Some v.
Proof.
  induction d as [|[k' v'] d IH]; simpl; [by intros _ ?%elem_of_nil|].
  intros [Hk' Hnd]%NoDup_cons [[= -> ->]|Hin]%elem_of_cons.
  - by rewrite bool_decide_eq_true_2.
  - rewrite bool_decide_eq_false_2; [auto|].
    intros ->. apply Hk'. apply list_elem_of_fmap. by exists (k, v).
Qed.

Lemma snd_enumerate {A} (l : list A) start : (enumerate start l).*2 = l.
Proof. revert start. induction l; intros; simpl; [done|by f_equal]. Qed.

Lemma items_pop_Permutation {A} (d : list (Z * A)) k v d' :
  items_pop d k = Some (v, d') -> d ≡ₚ (k, v) :: d'.
Proof.
  revert d'. induction d as [|[k0 v0] d IH]; intros d'; simpl; [done|].
  case_bool_decide as Hk.
  - intros [= -> ->]. by subst.
  - destruct (items_pop d k) as [[x d1]|] eqn:Hp; simpl; [|done].
    intros [= -> <-]. rewrite (IH _ eq_refl). apply Permutation_swap.
Qed.

Section Dataset.
Context {V : Type} `{Countable V}.
Implicit Types (h : gmap loc (gmap string V)) (self : dataset (V:=V)).
Implicit Types (cd : gmap V (gset Z)).

Lemma member_insert cd c' idx' c idx :
  member (<[c' := default ∅ (cd !! c') ∪ {[idx']}]> cd) c idx ↔
  member cd c idx ∨ (c = c' ∧ idx = idx').
Proof.
  unfold member. destruct (decide (c' = c)) as [->|Hne].
  - rewrite lookup_insert_eq. split.
    + intros (items & [= <-] & [Hin| ->%elem_of_singleton]%elem_of_union);
        [|by right].
      left. destruct (cd !! c) as [s|]; [by exists s|].
      by apply not_elem_of_empty in Hin.
    + intros [(items & Hc & Hin)|[_ ->]]; eexists; (split; [done|]).
      * rewrite Hc. simpl. apply elem_of_union. by left.
      * apply elem_of_union. right. by apply elem_of_singleton.
  - rewrite lookup_insert_ne by done. split; [by left|].
    intros [?|[-> _]]; done.
Qed.

(** The loop of [_data_to_class] adds each record's index to the set of
    the record's label, and nothing else. *)
Lemma data_to_class_from_member h label_key data cd0 cd :
  data_to_class_from h label_key data cd0 = Ok cd ->
  ∀ c idx, member cd c idx ↔
           member cd0 c idx ∨ labelled h label_key data c idx.
Proof.
  revert cd0. induction data as [|[idx' elem] rest IH]; intros cd0; simpl.
  - intros [= <-] c idx. split; [by left|].
    intros [?|(? & ?%elem_of_nil & _)]; done.
  - destruct (field h elem label_key) as [c'|e] eqn:Hf; simpl; [|done].
    intros Hrest c idx. rewrite (IH _ Hrest), member_insert.
    unfold labelled. split.
    + intros [[?|[-> ->]]|(el & Hin & Hl)]; [by left| |].
      * right. exists elem. split; [apply elem_of_cons; by left|done].
      * right. exists el. split; [apply elem_of_cons; by right|done].
    + intros [?|(el & [[= -> ->]|Hin]%elem_of_cons & Hl)];
        [by left; left| |].
      * left. right. split; [congruence|done].
      * right. by exists el.
Qed.

Lemma data_to_class_from_labelled h label_key data cd0 cd :
  data_to_class_from h label_key data cd0 = Ok cd ->
  ∀ idx elem, (idx, elem) ∈ data -> ∃ c, field h elem label_key = Ok c.
Proof.
  revert cd0. induction data as [|[idx' elem'] rest IH]; intros cd0; simpl.
  - by intros _ ?? ?%elem_of_nil.
  - destruct (field h elem' label_key) as [c'|e] eqn:Hf; simpl; [|done].
    intros Hrest idx elem [[= -> ->]|Hin]%elem_of_cons; eauto.
Qed.

Lemma data_to_class_from_nonempty h label_key data cd0 cd :
  data_to_class_from h label_key data cd0 = Ok cd ->
  (∀ c items, cd0 !! c = Some items -> items ≠ ∅) ->
  ∀ c items, cd !! c = Some items -> items ≠ ∅.
Proof.
  revert cd0. induction data as [|[idx' elem'] rest IH]; intros cd0; simpl.
  - by intros [= <-].
  - destruct (field h elem' label_key) as [c'|e] eqn:Hf; simpl; [|done].
    intros Hrest H0. apply (IH _ Hrest). intros c items.
    destruct (decide (c' = c)) as [->|Hne].
    + rewrite lookup_insert_eq. intros [= <-] Hempty.
      apply (not_elem_of_empty (C := gset Z) idx'). rewrite <- Hempty.
      apply elem_of_union. right. by apply elem_of_singleton.
    + rewrite lookup_insert_ne by done. apply H0.
Qed.

Lemma data_to_class_member h data label_key cd :
  data_to_class h data label_key = Ok cd ->
  ∀ c idx, member cd c idx ↔ labelled h label_key data c idx.
Proof.
  intros Hd c idx. rewrite (data_to_class_from_member _ _ _ _ _ Hd).
  split; [|by right]. intros [(items & Hl & _)|?]; [|done].
  by rewrite lookup_empty in Hl.
Qed.

(** What [_data_to_class] computes is a class index of the records it is
    computed from. *)
Lemma data_to_class_index h self :
  NoDup (data self).*1 ->
  data_to_class h (data self) (label_key self) = Ok (class_data self) ->
  class_index self.
Proof.
  intros Hnd Hd. split.
  - intros idx. split.
    + intros ([idx' elem] & -> & Hin)%list_elem_of_fmap. simpl.
      destruct (data_to_class_from_labelled _ _ _ _ _ Hd _ _ Hin) as [c Hc].
      exists c. apply (data_to_class_member _ _ _ _ Hd). by exists elem.
    + intros (c & (elem & Hin & _)%(data_to_class_member _ _ _ _ Hd)).
      apply list_elem_of_fmap. by exists (idx, elem).
  - intros c1 c2 items1 items2 Hne H1 H2.
    apply elem_of_disjoint. intros idx Hi1 Hi2. apply Hne.
    assert (member (class_data self) c1 idx)
      as (e1 & Hin1 & Hf1)%(data_to_class_member _ _ _ _ Hd)
      by by exists items1.
    assert (member (class_data self) c2 idx)
      as (e2 & Hin2 & Hf2)%(data_to_class_member _ _ _ _ Hd)
      by by exists items2.
    apply (elem_of_items_get _ _ _ Hnd) in Hin1, Hin2. congruence.
Qed.

Lemma contiguous_NoDup self : contiguous self -> NoDup (data self).*1.
Proof. intros ->. apply NoDup_seqZ. Qed.

Lemma rebuilt_class_index h self : rebuilt h self -> class_index self.
Proof.
  intros [Hc Hd].
  eapply data_to_class_index; [by apply contiguous_NoDup|done].
Qed.

(** The dict the pops build has the keys [new_idx, new_idx + 1, ...]. *)
Lemma pop_all_spec split : ∀ new_idx self d self',
  pop_all new_idx split self = (Ok d, self') ->
  d.*1 = seqZ new_idx (Z.of_nat (length split)) ∧
  label_key self' = label_key self.
Proof.
  induction split as [|old_idx rest IH]; intros new_idx self d self'; simpl.
  - by intros [= <- <-].
  - unfold mbind, M_bind, pop.
    destruct (items_pop (data self) old_idx) as [[v d0]|]; [|done].
    destruct (pop_all (new_idx + 1) rest (set_data d0 self))
      as [[d1|e] s1] eqn:Hrest; [|done].
    intros [= <- <-]. destruct (IH _ _ _ _ Hrest) as [Hk Hl].
    split; [|done]. cbn [fmap list_fmap fst length].
    rewrite seqZ_cons by lia. f_equal.
    fold (fmap (M:=list) (@fst Z loc) d1).
    rewrite Hk. f_equal; lia.
Qed.

(** The records popped and the records left are the records there were. *)
Lemma pop_all_Permutation split : ∀ new_idx self d self',
  pop_all new_idx split self = (Ok d, self') ->
  (data self).*2 ≡ₚ d.*2 ++ (data self').*2.
Proof.
  induction split as [|old_idx rest IH]; intros new_idx self d self'; simpl.
  - by intros [= <- <-].
  - unfold mbind, M_bind, pop.
    destruct (items_pop (data self) old_idx) as [[v d0]|] eqn:Hp; [|done].
    destruct (pop_all (new_idx + 1) rest (set_data d0 self))
      as [[d1|e] s1] eqn:Hrest; [|done].
    intros [= <- <-]. apply IH in Hrest. simpl in Hrest.
    rewrite (items_pop_Permutation _ _ _ _ Hp). cbn [fmap list_fmap snd].
    fold (fmap (M:=list) (@snd Z loc) d0).
    fold (fmap (M:=list) (@snd Z loc) d1).
    by rewrite Hrest.
Qed.

Section Sorted.
Context (V_le : relation V) `{!RelDecision V_le}.

Lemma split_off_rebuilt h split self r self' :
  split_off V_le h split self = (Ok r, self') -> rebuilt h r.
Proof.
  unfold split_off, mbind at 1 2, M_bind, get, lift.
  destruct (_ <$> gen_for_each _ split) as [idxs|e]; [|done].
  unfold mbind at 1, M_bind.
  destruct (pop_all 0 idxs self) as [[d|e] s1] eqn:Hpop; [|done].
  unfold mbind, M_bind, lift.
  destruct (data_to_class h d (label_key self)) as [cd|e] eqn:Hcd; [|done].
  intros [= <- <-]. destruct (pop_all_spec _ _ _ _ _ Hpop) as [Hk Hl].
  split.
  - unfold contiguous. simpl. rewrite Hk. f_equal.
    rewrite <- (length_fmap fst d), Hk, length_seqZ. lia.
  - simpl. by rewrite Hl.
Qed.

(** When [_do_split] returns, the source and every result are rebuilt. *)
Lemma do_split_rebuilt h splits self results self' :
  do_split V_le h splits self = (Ok results, self') ->
  rebuilt h self' ∧ Forall (rebuilt h) results.
Proof.
  unfold do_split, mbind at 1, M_bind.
  destruct (for_each_M (split_off V_le h) splits self)
    as [[rs|e] s1] eqn:Hfor; [|done].
  unfold mbind, M_bind, get, put, lift. simpl.
  destruct (data_to_class h _ (label_key s1)) as [cd|e] eqn:Hcd; [|done].
  intros [= <- <-]. split.
  - split; [|done]. unfold contiguous. simpl.
    by rewrite fst_enumerate, length_enumerate.
  - eapply for_each_M_Forall; [|exact Hfor].
    intros. by eapply split_off_rebuilt.
Qed.

Lemma split_off_Permutation h split self r self' :
  split_off V_le h split self = (Ok r, self') ->
  (data self).*2 ≡ₚ (data r).*2 ++ (data self').*2.
Proof.
  unfold split_off, mbind at 1 2, M_bind, get, lift.
  destruct (_ <$> gen_for_each _ split) as [idxs|e]; [|done].
  unfold mbind at 1, M_bind.
  destruct (pop_all 0 idxs self) as [[d|e] s1] eqn:Hpop; [|done].
  unfold mbind, M_bind, lift.
  destruct (data_to_class h d (label_key self)) as [cd|e] eqn:Hcd; [|done].
  intros [= <- <-]. simpl. by eapply pop_all_Permutation.
Qed.

Lemma split_offs_Permutation h splits : ∀ self results self',
  for_each_M (split_off V_le h) splits self = (Ok results, self') ->
  (data self).*2 ≡ₚ
    concat ((fun r => (data r).*2) <$> results) ++ (data self').*2.
Proof.
  induction splits as [|g rest IH]; intros self results self'; simpl.
  - by intros [= <- <-].
  - unfold mbind, M_bind.
    destruct (split_off V_le h g self) as [[r|e] s1] eqn:Hg; [|done].
    destruct (for_each_M _ rest s1) as [[rs|e] s2] eqn:Hrest; [|done].
    intros [= <- <-]. simpl.
    rewrite (split_off_Permutation _ _ _ _ _ Hg), (IH _ _ _ Hrest).
    by rewrite app_assoc.
Qed.

(** When [_do_split] returns, every record of the source is in exactly one
    place: one of the results, or what is left of the source. *)
Lemma do_split_Permutation h splits self results self' :
  do_split V_le h splits self = (Ok results, self') ->
  (data self).*2 ≡ₚ
    concat ((fun r => (data r).*2) <$> results) ++ (data self').*2.
Proof.
  unfold do_split, mbind at 1, M_bind.
  destruct (for_each_M (split_off V_le h) splits self)
    as [[rs|e] s1] eqn:Hfor; [|done].
  unfold mbind, M_bind, get, put, lift. simpl.
  destruct (data_to_class h _ (label_key s1)) as [cd|e] eqn:Hcd; [|done].
  intros [= <- <-]. simpl. rewrite snd_enumerate.
  by eapply split_offs_Permutation.
Qed.

(** The lengths add up. *)
Lemma do_split_len h splits self results self' :
  do_split V_le h splits self = (Ok results, self') ->
  len self = len self' + foldr Z.add 0 (len <$> results).
Proof.
  intros Hperm. apply do_split_Permutation in Hperm. unfold len.
  rewrite <- (length_fmap snd (data self)), Hperm, length_app, Nat2Z.inj_add,
    (length_fmap snd (data self')).
  assert (∀ rs : list (dataset (V:=V)),
            Z.of_nat (length (concat ((fun r => (data r).*2) <$> rs)))
            = foldr Z.add 0 ((fun r => Z.of_nat (length (data r))) <$> rs)) as ->.
  { induction rs as [|r rs IH]; [done|].
    cbn [fmap list_fmap concat foldr].
    rewrite length_app, Nat2Z.inj_add, length_fmap.
    fold (fmap (M:=list) (fun r : dataset (V:=V) => (data r).*2) rs).
    by rewrite IH. }
  fold (@len V _ _). unfold len. lia.
Qed.

End Sorted.
End Dataset.

End ClassFacts.

(** ** [SiameseDirDataset.split]: re-keying and the class index *)

Module SplitInvariants.
Import FE Siamese Props PyFacts SplitFacts ClassFacts.

Section Dataset.
Context {V : Type} `{Countable V}.
Context (V_le : relation V) `{!RelDecision V_le}.
Implicit Types (h : gmap loc (gmap string V)) (self : dataset (V:=V)).

(** C5. After a split of a [SiameseDirDataset] that returns, the record
    keys of the source and of every produced dataset are [0..len-1]. *)
Theorem split_rekeys h (rnd : tape) (fractions : list descriptor)
    (method : string) self res self' :
  split (H := siamese_dataset V_le h) rnd fractions method self
  = (Ok res, self') ->
  contiguous self' ∧ Forall contiguous (produced res).
Proof.
  intros (splits & results & Hd & Hsub)%split_ok.
  apply do_split_rebuilt in Hd as [[Hs _] Hr]. split; [done|].
  apply Forall_forall. intros d Hin%Hsub.
  by eapply Forall_forall in Hr as [? _].
Qed.

(** C6. The dataset the constructor builds from an index to record dict,
    and after a split that returns the source and every produced dataset:
    the sets of the class index cover exactly the record indices, and the
    sets of two classes are disjoint. *)
Theorem class_index_maintained :
  (∀ h data left right label p self,
     NoDup data.*1 ->
     init h data left right label p = Ok self -> class_index self) ∧
  (∀ h rnd fractions method self res self',
     split (H := siamese_dataset V_le h) rnd fractions method self
     = (Ok res, self') ->
     class_index self' ∧ Forall class_index (produced res)).
Proof.
  split.
  - intros h data left right label p self Hnd. unfold init.
    destruct (data_to_class h data label) as [cd|e] eqn:Hcd; [|done].
    simpl. intros [= <-]. by eapply data_to_class_index.
  - intros h rnd fractions method self res self'
      (splits & results & Hd & Hsub)%split_ok.
    apply do_split_rebuilt in Hd as [Hs Hr].
    split; [by eapply rebuilt_class_index|].
    apply Forall_forall. intros d Hin%Hsub.
    eapply rebuilt_class_index. by eapply Forall_forall in Hr.
Qed.

End Dataset.

End SplitInvariants.

(** ** Facts about item access *)

Module ItemFacts.
Import FE Siamese Props PyFacts ClassFacts.

Section Dataset.
Context {V : Type} `{Countable V}.
Implicit Types (h : gmap loc (gmap string V)) (self : dataset (V:=V)).

Lemma wfb_wf h self : wfb h self = true -> wf h self.
Proof.
  unfold wfb. intros [[Hk Hc]%andb_prop Hd]%andb_prop.
  apply bool_decide_eq_true in Hk.
  destruct (data_to_class h (data self) (label_key self)) as [cd|e] eqn:Hcd;
    [|done].
  apply bool_decide_eq_true in Hc. subst cd.
  rewrite forallb_forall in Hd.
  split; [done|done| |]; intros idx elem Hin;
    apply list_elem_of_In, Hd in Hin;
    apply andb_prop in Hin as [H1 H2];
    by apply bool_decide_eq_true in H1, H2.
Qed.

(** An index of a class is a key of the dataset; its record is in the
    store and holds the label of the class and a data value. *)
Lemma wf_member h self c idx :
  wf h self -> member (class_data self) c idx ->
  ∃ elem, data_getitem self idx = Ok elem ∧ elem ∈ dom h ∧
          field h elem (label_key self) = Ok c ∧
          ∃ x, field h elem (data_key_left self) = Ok x.
Proof.
  intros Hwf (elem & Hin & Hf)%(data_to_class_member _ _ _ _
                                  (wf_class_data _ _ Hwf)).
  exists elem. unfold data_getitem.
  rewrite (elem_of_items_get _ _ _ (wf_keys _ _ Hwf) Hin).
  split_and!; [done|by eapply wf_alloc|done|].
  destruct (wf_left _ _ Hwf _ _ Hin) as [x Hx]. exists x.
  unfold field, dict_getitem. by rewrite Hx.
Qed.

(** A key of the dataset is in the set of its record's label. *)
Lemma wf_index h self index elem c items :
  wf h self -> data_getitem self index = Ok elem ->
  field h elem (label_key self) = Ok c ->
  class_data self !! c = Some items -> index ∈ items.
Proof.
  intros Hwf Hg Hf Hc. unfold data_getitem in Hg.
  destruct (items_get _ _) as [e|] eqn:Hi; [|done]. injection Hg as ->.
  apply items_get_elem_of in Hi.
  assert (member (class_data self) c index) as (items' & Hc' & Hin).
  { apply (data_to_class_member _ _ _ _ (wf_class_data _ _ Hwf)).
    by exists elem. }
  congruence.
Qed.

(** No class is empty. *)
Lemma wf_nonempty h self c items :
  wf h self -> class_data self !! c = Some items -> elements items ≠ [].
Proof.
  intros Hwf Hc Hnil. apply elements_empty_inv in Hnil.
  eapply (data_to_class_from_nonempty _ _ _ _ _ (wf_class_data _ _ Hwf));
    [|done|].
  - intros ??. by rewrite lookup_empty.
  - by apply leibniz_equiv.
Qed.

(** The copy has the fields of the record it was copied from. *)
Lemma field_deepcopy h elem key :
  field (<[fresh (dom h) := h !!! elem]> h) (fresh (dom h)) key
  = field h elem key.
Proof. unfold field. by rewrite lookup_total_insert_eq. Qed.

(** The records that were in the store are not the copy. *)
Lemma field_stored h (r : gmap string V) o key :
  o ∈ dom h -> field (<[fresh (dom h) := r]> h) o key = field h o key.
Proof.
  intros Ho. unfold field. rewrite lookup_total_insert_ne; [done|].
  intros E. rewrite <- E in Ho. by apply is_fresh in Ho.
Qed.

Lemma stored_unchanged h (r : gmap string V) l :
  l ∈ dom h -> <[fresh (dom h) := r]> h !! l = h !! l.
Proof.
  intros Hl. apply lookup_insert_ne. intros E. rewrite <- E in Hl.
  by apply is_fresh in Hl.
Qed.

Lemma left_of_member h self c idx :
  wf h self -> member (class_data self) c idx ->
  ∃ x, left_of h self idx = Ok x.
Proof.
  intros Hwf Hm. destruct (wf_member h self c idx Hwf Hm)
    as (elem & Hg & _ & _ & x & Hx).
  exists x. unfold left_of. by rewrite Hg.
Qed.

End Dataset.

End ItemFacts.

(** ** [__getitem__] *)

Module ItemProps.
Import FE Siamese Props PyFacts ClassFacts ItemFacts.

Section Dataset.
Context {V : Type} `{Countable V}.
Context (of_int : Z -> V).
Implicit Types (h : gmap loc (gmap string V)) (self : dataset (V:=V)).

(** C3. Item access on an index whose class has exactly one member, with
    the draw selecting the matching branch, fails: the sampling call is
    given an empty candidate list and raises its [ValueError]. The records
    in the store are as they were. *)
Theorem getitem_singleton_raises h self (u : float) (rnd : tape)
    (index : Z) elem c items :
  wf h self ->
  data_getitem self index = Ok elem ->
  field h elem (label_key self) = Ok c ->
  class_data self !! c = Some items ->
  size items = 1%nat ->
  (u <? percent_matching_data self)%float = true ->
  ∃ h', getitem of_int self u rnd index h = (Raise ValueError, h') ∧
        ∀ l, l ∈ dom h -> h' !! l = h !! l.
Proof.
  intros Hwf Hg Hf Hc Hsz Hu.
  pose proof (wf_index _ _ _ _ _ _ Hwf Hg Hf Hc) as Hin.
  apply size_1_elem_of in Hsz as [x Hx]. apply leibniz_equiv in Hx.
  subst items. apply elem_of_singleton in Hin as <-.
  exists (<[fresh (dom h) := h !!! elem]> h).
  split; [|intros; by apply stored_unchanged].
  unfold getitem, mbind, M_bind, lift, deepcopy, get.
  rewrite Hg, Hu, field_deepcopy, Hf. unfold dict_getitem. rewrite Hc.
  by rewrite difference_diag_L, elements_empty.
Qed.

(** C7, amended. For a valid index of a dataset with three different keys,
    when the branch the draw [u] selects has something to sample, item
    access returns a new record, the stored records unchanged, that is the
    stored record of the index with two fields set: the right key holds the
    data value of the sampled instance [other] and the label key holds 1 or
    0. When [u < p], [other] is another instance of the class of the index;
    otherwise it is an instance of another class. *)
Theorem getitem_pairs h self (u : float) (rnd : tape) (index : Z)
    elem c items :
  wf h self ->
  distinct_keys self ->
  data_getitem self index = Ok elem ->
  field h elem (label_key self) = Ok c ->
  class_data self !! c = Some items ->
  has_partner self c items index (u <? percent_matching_data self)%float ->
  ∃ base h' other o x,
    getitem of_int self u rnd index h = (Ok base, h') ∧
    (base ∉ dom h) ∧ (∀ l, l ∈ dom h -> h' !! l = h !! l) ∧
    data_getitem self other = Ok o ∧
    field h o (data_key_left self) = Ok x ∧
    (h' !!! base) =
      <[label_key self :=
          of_int (if (u <? percent_matching_data self)%float then 1 else 0)]>
        (<[data_key_right self := x]> (h !!! elem)) ∧
    (h' !!! base) !! data_key_left self = (h !!! elem) !! data_key_left self ∧
    (h' !!! base) !! data_key_right self = Some x ∧
    (if (u <? percent_matching_data self)%float
     then other ∈ items ∧ other ≠ index
     else ∃ other_class others,
            other_class ≠ c ∧
            class_data self !! other_class = Some others ∧ other ∈ others).
Proof.
  intros Hwf (Hlr & Hll & Hrl) Hg Hf Hc Hp.
  set (l := fresh (dom h)). set (h1 := <[l := h !!! elem]> h).
  assert (∃ other o x,
             (if (u <? percent_matching_data self)%float
              then choice (elements (items ∖ {[index]})) rnd = Ok other ∧
                   other ∈ items ∧ other ≠ index
              else ∃ other_class others,
                     choice (elements (dom (class_data self) ∖ {[c]})) rnd
                       = Ok other_class ∧
                     class_data self !! other_class = Some others ∧
                     choice (elements others) (advance 1 rnd) = Ok other ∧
                     other_class ≠ c ∧ other ∈ others) ∧
             data_getitem self other = Ok o ∧ o ∈ dom h ∧
             field h o (data_key_left self) = Ok x)
    as (other & o & x & Hbranch & Ho & Hoh & Hx).
  { unfold has_partner in Hp. destruct (u <? _)%float.
    - destruct (choice_ok (elements (items ∖ {[index]})) rnd)
        as (other & Hch & Hin).
      { intros ?%elements_empty_inv%leibniz_equiv. done. }
      apply elem_of_elements, elem_of_difference in Hin as [Hin Hne].
      destruct (wf_member h self c other Hwf)
        as (o & Ho & Hoh & _ & x & Hx); [by exists items|].
      exists other, o, x. split_and!; try done.
      intros ->. apply Hne. by apply elem_of_singleton.
    - destruct (choice_ok (elements (dom (class_data self) ∖ {[c]})) rnd)
        as (oc & Hch & Hin).
      { intros ?%elements_empty_inv%leibniz_equiv. done. }
      apply elem_of_elements, elem_of_difference in Hin as [Hin Hne].
      apply elem_of_dom in Hin as [others Hothers].
      destruct (choice_ok (elements others) (advance 1 rnd))
        as (other & Hch' & Hin').
      { by eapply wf_nonempty. }
      apply elem_of_elements in Hin'.
      destruct (wf_member h self oc other Hwf)
        as (o & Ho & Hoh & _ & x & Hx); [by exists others|].
      exists other, o, x. split_and!; try done.
      exists oc, others. split_and!; try done.
      intros ->. apply Hne. by apply elem_of_singleton. }
  assert (field h1 o (data_key_left self) = Ok x) as Hx1
    by (unfold h1, l; by rewrite field_stored).
  assert (field h1 l (label_key self) = Ok c) as Hf1
    by (unfold h1, l; by rewrite field_deepcopy).
  set (r := <[label_key self :=
                of_int (if (u <? percent_matching_data self)%float
                        then 1 else 0)]>
              (<[data_key_right self := x]> (h !!! elem))).
  exists l, (<[l := r]> h), other, o, x.
  assert (getitem of_int self u rnd index h = (Ok l, <[l := r]> h)) as ->.
  { unfold getitem, mbind at 1 2, M_bind, lift, deepcopy. rewrite Hg.
    fold l. fold h1. unfold r.
    destruct (u <? _)%float.
    - destruct Hbranch as (Hch & _ & _).
      unfold mbind, M_bind, lift, get, setitem, mret, M_ret.
      rewrite Hf1. unfold dict_getitem at 1. rewrite Hc, Hch, Ho, Hx1.
      f_equal. unfold h1.
      rewrite !lookup_total_insert_eq, !insert_insert_eq. done.
    - destruct Hbranch as (oc & others & Hch & Hoc & Hch' & _ & _).
      unfold mbind, M_bind, lift, get, setitem, mret, M_ret.
      rewrite Hf1, Hch. unfold dict_getitem at 1.
      rewrite Hoc, Hch', Ho, Hx1.
      f_equal. unfold h1.
      rewrite !lookup_total_insert_eq, !insert_insert_eq. done. }
  split_and!; try done.
  - apply is_fresh.
  - intros l0 Hl0. by apply stored_unchanged.
  - by rewrite lookup_total_insert_eq.
  - rewrite lookup_total_insert_eq. unfold r.
    by rewrite lookup_insert_ne, lookup_insert_ne by done.
  - rewrite lookup_total_insert_eq. unfold r.
    by rewrite lookup_insert_ne, lookup_insert_eq by done.
  - destruct (u <? _)%float.
    + by destruct Hbranch as (_ & ? & ?).
    + destruct Hbranch as (oc & others & _ & ? & _ & ? & ?).
      by exists oc, others.
Qed.

End Dataset.

End ItemProps.

(** ** [one_shot_trial] *)

Module TrialProps.
Import FE Siamese Props PyFacts ClassFacts ItemFacts.

Section Dataset.
Context {V : Type} `{Countable V}.
Implicit Types (h : gmap loc (gmap string V)) (self : dataset (V:=V)).

(** The loop over the other classes draws one instance of each. *)
Lemma others_spec h self classes : ∀ rnd,
  wf h self -> classes ⊆ elements (dom (class_data self)) ->
  ∃ xs, others h self classes rnd = Ok xs ∧
        Forall2 (instance_of h self) classes xs.
Proof.
  induction classes as [|clazz rest IH]; intros rnd Hwf Hsub; simpl.
  - by exists [].
  - assert (clazz ∈ dom (class_data self)) as [items Hitems]%elem_of_dom.
    { apply elem_of_elements, Hsub, elem_of_cons. by left. }
    unfold dict_getitem at 1. rewrite Hitems. simpl.
    destruct (choice_ok (elements items) rnd) as (index & -> & Hin);
      [by eapply wf_nonempty|]. simpl.
    apply elem_of_elements in Hin.
    destruct (left_of_member h self clazz index Hwf) as [x Hx];
      [by exists items|]. rewrite Hx. simpl.
    destruct (IH (advance 1 rnd) Hwf) as (xs & -> & Hxs).
    { intros c Hc. apply Hsub, elem_of_cons. by right. }
    simpl. exists (x :: xs). split; [done|]. constructor; [|done].
    exists index. split; [by exists items|done].
Qed.

Lemma length_keys self :
  length (elements (dom (class_data self))) = size (class_data self).
Proof. by rewrite <- size_dom. Qed.

(** With [n] in range, the classes are sampled. *)
Lemma sampled_classes self (rnd : tape) (n : Z) clazz rest :
  0 ≤ n ≤ Z.of_nat (size (class_data self)) ->
  draw (elements (dom (class_data self))) (Z.to_nat n) rnd = clazz :: rest ->
  choice_no_replace (elements (dom (class_data self))) (Z.to_nat n) rnd
  = Ok (clazz :: rest).
Proof.
  intros Hn Hdraw. pose proof (length_keys self) as Hlen.
  unfold choice_no_replace.
  destruct (elements (dom (class_data self))) as [|k keys] eqn:Hk.
  { by destruct (Z.to_nat n). }
  rewrite bool_decide_eq_false_2 by done.
  destruct (_ <? Z.to_nat n)%nat eqn:E3; [apply Nat.ltb_lt in E3; lia|].
  simpl. by rewrite <- Hdraw.
Qed.

(** C9, amended. [one_shot_trial(n)] raises [AssertionError] for [n < 2]
    and for [n] above the number of classes. For [n] in range, when the
    first sampled class has at least two instances, it returns two lists of
    length [n]: the first repeats the data value of an instance [i0] of the
    first class, the second starts with the data value of another instance
    [i1] of that class and goes on with the data value of one instance of
    each other sampled class; the sampled classes are pairwise different. *)
Theorem one_shot_trial_spec h self (rnd : tape) (n : Z) :
  wf h self ->
  (n < 2 ∨ Z.of_nat (size (class_data self)) < n ->
   one_shot_trial h self rnd n = Raise AssertionError) ∧
  (2 ≤ n ≤ Z.of_nat (size (class_data self)) ->
   ∀ clazz rest items,
     draw (elements (dom (class_data self))) (Z.to_nat n) rnd
     = clazz :: rest ->
     class_data self !! clazz = Some items ->
     (2 ≤ size items)%nat ->
     ∃ i0 i1 x0 x1 xs,
       one_shot_trial h self rnd n
       = Ok (replicate (Z.to_nat n) x0, x1 :: xs) ∧
       length (replicate (Z.to_nat n) x0) = Z.to_nat n ∧
       length (x1 :: xs) = Z.to_nat n ∧
       i0 ∈ items ∧ i1 ∈ items ∧ i0 ≠ i1 ∧
       left_of h self i0 = Ok x0 ∧ left_of h self i1 = Ok x1 ∧
       NoDup (clazz :: rest) ∧
       Forall2 (instance_of h self) rest xs).
Proof.
  intros Hwf. split.
  - intros Hn. unfold one_shot_trial.
    destruct (1 <? n) eqn:E1; simpl; [|done].
    rewrite length_keys.
    destruct (n <=? Z.of_nat (size (class_data self))) eqn:E2; simpl;
      [|done].
    lia.
  - intros [Hn1 Hn2] clazz rest items Hdraw Hitems Hsz.
    pose proof (length_keys self) as Hlen.
    unfold one_shot_trial.
    destruct (1 <? n) eqn:E1; simpl; [|lia].
    rewrite Hlen.
    destruct (n <=? Z.of_nat (size (class_data self))) eqn:E2; simpl;
      [|lia].
    rewrite (sampled_classes self rnd n clazz rest) by (done || lia).
    cbn [mbind result_bind]. rewrite list_getitem_0.
    cbn [mbind result_bind].
    unfold dict_getitem at 1. rewrite Hitems. cbn [mbind result_bind].
    set (rnd' := advance (Z.to_nat n) rnd).
    assert (length (elements items) = size items) as Hli by done.
    unfold choice_no_replace.
    rewrite bool_decide_eq_false_2
      by (intros E; rewrite E in Hli; simpl in Hli; lia).
    destruct (_ <? 2)%nat eqn:E4; [apply Nat.ltb_lt in E4; lia|].
    cbn [orb mbind result_bind].
    pose proof (length_draw (elements items) 2 rnd' ltac:(lia)) as Hl2.
    pose proof (NoDup_draw (elements items) 2 rnd' (NoDup_elements _))
      as Hnd2.
    pose proof (draw_subseteq (elements items) 2 rnd') as Hsub2.
    destruct (draw (elements items) 2 rnd') as [|i0 [|i1 [|]]]; try done.
    cbn [mbind result_bind list_getitem length].
    assert (i0 ∈ items ∧ i1 ∈ items) as [Hi0 Hi1].
    { split; apply elem_of_elements, Hsub2.
      - apply elem_of_cons. by left.
      - apply elem_of_cons. right. apply elem_of_cons. by left. }
    destruct (left_of_member h self clazz i0 Hwf) as [x0 Hx0];
      [by exists items|].
    destruct (left_of_member h self clazz i1 Hwf) as [x1 Hx1];
      [by exists items|].
    simpl. rewrite Hx0. simpl. rewrite Hx1. simpl.
    assert (NoDup (clazz :: rest)) as Hndc
      by (rewrite <- Hdraw; apply NoDup_draw, NoDup_elements).
    rewrite drop_0.
    destruct (others_spec h self rest (advance 2 rnd') Hwf)
      as (xs & -> & Hxs).
    { intros c Hc. apply (draw_subseteq _ (Z.to_nat n) rnd). rewrite Hdraw.
      apply elem_of_cons. by right. }
    simpl. exists i0, i1, x0, x1, xs. split_and!; try done.
    + by rewrite length_replicate.
    + simpl. apply Forall2_length in Hxs. rewrite <- Hxs.
      pose proof (length_draw (elements (dom (class_data self)))
                    (Z.to_nat n) rnd ltac:(lia)) as Hln.
      rewrite Hdraw in Hln. simpl in Hln. lia.
    + apply NoDup_cons in Hnd2 as [Hne _]. intros ->. apply Hne.
      apply elem_of_cons. by left.
Qed.

(** C10. With [n] in range, when the first sampled class has fewer than
    two instances, [one_shot_trial(n)] fails: the draw of two distinct
    reference instances raises [ValueError]. *)
Theorem one_shot_trial_singleton h self (rnd : tape) (n : Z)
    clazz rest items :
  2 ≤ n ≤ Z.of_nat (size (class_data self)) ->
  draw (elements (dom (class_data self))) (Z.to_nat n) rnd = clazz :: rest ->
  class_data self !! clazz = Some items ->
  (size items < 2)%nat ->
  one_shot_trial h self rnd n = Raise ValueError.
Proof.
  intros [Hn1 Hn2] Hdraw Hitems Hsz.
  pose proof (length_keys self) as Hlen.
  unfold one_shot_trial.
  destruct (1 <? n) eqn:E1; simpl; [|lia].
  rewrite Hlen.
  destruct (n <=? Z.of_nat (size (class_data self))) eqn:E2; simpl; [|lia].
  rewrite (sampled_classes self rnd n clazz rest) by (done || lia).
  cbn [mbind result_bind]. rewrite list_getitem_0.
  cbn [mbind result_bind].
  unfold dict_getitem at 1. rewrite Hitems. cbn [mbind result_bind].
  unfold choice_no_replace.
  assert (length (elements items) = size items) as Hli by done.
  destruct (_ <? 2)%nat eqn:E4; [|apply Nat.ltb_ge in E4; lia].
  by rewrite orb_true_r.
Qed.

End Dataset.

End TrialProps.

(** ** The properties on concrete datasets *)

Module Cases.
Import FE Siamese Props Examples.

(** The datasets loaded from the scans are well formed. *)
Lemma wf_load_two_classes : wf (scan_heap two_classes) (load two_classes).
Proof. apply ItemFacts.wfb_wf. vm_compute. reflexivity. Qed.

Lemma wf_load_one_and_two : wf (scan_heap one_and_two) (load one_and_two).
Proof. apply ItemFacts.wfb_wf. vm_compute. reflexivity. Qed.

Lemma distinct_keys_two_classes : distinct_keys (load two_classes).
Proof. repeat split; intros [=]. Qed.

(** [split(0.5, 0.6)] on the ten records: the fractions sum to 1.1. *)
Lemma split_fails_before_mutation_witness :
  ∃ e, split_of two_classes zeros [DFloat 0.5; DFloat 0.6] "random"
       = (Raise e, load two_classes) ∧
       validation_error e = true.
Proof.
  unfold split_of. apply SplitProps.split_fails_before_mutation.
  apply fraction_sum. vm_compute. reflexivity.
Defined.

(** Item access on record 0 of the three records, the only one of its class,
    with a draw below the matching percentage. *)
Lemma getitem_singleton_raises_witness :
  ∃ h', getitem VInt (load one_and_two) 0.25 zeros 0 (scan_heap one_and_two)
        = (Raise ValueError, h') ∧
        ∀ l, l ∈ dom (scan_heap one_and_two) ->
             h' !! l = scan_heap one_and_two !! l.
Proof.
  apply (ItemProps.getitem_singleton_raises VInt _ _ _ _ _
           1%positive (VInt 0) {[0]}).
  - exact wf_load_one_and_two.
  - vm_compute. reflexivity.
  - vm_compute. reflexivity.
  - vm_compute. reflexivity.
  - vm_compute. reflexivity.
  - vm_compute. reflexivity.
Defined.

(** [split(1, method="from_front")] on the ten records returns the first
    class; the keys on both sides are contiguous. *)
Lemma split_rekeys_witness :
  contiguous front_split.2 ∧
  Forall contiguous (produced (returned front_split)).
Proof.
  apply (SplitInvariants.split_rekeys value_le (scan_heap two_classes)
           zeros [DInt 1] "from_front" (load two_classes)).
  vm_compute. reflexivity.
Defined.

(** The class index of the ten records as loaded, and on both sides of
    [split(1, method="from_front")]. *)
Lemma class_index_maintained_witness :
  class_index (load two_classes) ∧
  class_index front_split.2 ∧
  Forall class_index (produced (returned front_split)).
Proof.
  destruct (SplitInvariants.class_index_maintained value_le)
    as [Hinit Hsplit].
  split.
  - apply (Hinit (scan_heap two_classes) (scan_data two_classes)
             "x_a" "x_b" "y" 0.5%float).
    + apply (bool_decide_eq_true_1 _). vm_compute. reflexivity.
    + vm_compute. reflexivity.
  - apply (Hsplit (scan_heap two_classes) zeros [DInt 1] "from_front"
             (load two_classes)).
    vm_compute. reflexivity.
Defined.

(** On two records in one class, item access on the valid index 0 with a
    draw that selects the non-matching branch returns nothing: there is no
    other class to sample. *)
Lemma getitem_no_other_class :
  wfb (scan_heap one_class) (load one_class) = true ∧
  data_getitem (load one_class) 0 = Ok 1%positive ∧
  (0.75 <? percent_matching_data (load one_class))%float = false ∧
  (getitem VInt (load one_class) 0.75 zeros 0 (scan_heap one_class)).1
  = Raise ValueError.
Proof. vm_compute. repeat split; reflexivity. Qed.

(** Item access on record 0 of the ten records with a draw below the
    matching percentage: the partner is another record of class 0. *)
Lemma getitem_pairs_witness :
  ∃ base h' other o x,
    getitem VInt (load two_classes) 0.25 zeros 0 (scan_heap two_classes)
    = (Ok base, h') ∧
    (base ∉ dom (scan_heap two_classes)) ∧
    (∀ l, l ∈ dom (scan_heap two_classes) ->
          h' !! l = scan_heap two_classes !! l) ∧
    data_getitem (load two_classes) other = Ok o ∧
    field (scan_heap two_classes) o "x_a" = Ok x ∧
    (h' !!! base) =
      <["y" := VInt 1]>
        (<["x_b" := x]> (scan_heap two_classes !!! 1%positive)) ∧
    (h' !!! base) !! "x_a" = (scan_heap two_classes !!! 1%positive) !! "x_a" ∧
    (h' !!! base) !! "x_b" = Some x ∧
    (other ∈ ({[0; 1; 2; 3; 4]} : gset Z) ∧ other ≠ 0).
Proof.
  apply (ItemProps.getitem_pairs VInt (scan_heap two_classes)
           (load two_classes) 0.25 zeros 0 1%positive (VInt 0)
           {[0; 1; 2; 3; 4]}).
  - exact wf_load_two_classes.
  - exact distinct_keys_two_classes.
  - vm_compute. reflexivity.
  - vm_compute. reflexivity.
  - vm_compute. reflexivity.
  - change (({[0; 1; 2; 3; 4]} ∖ {[0]} : gset Z) ≠ ∅).
    apply (bool_decide_eq_true_1 _). vm_compute. reflexivity.
Defined.

(** [split(0.3, 0.3, method="from_back")] on the ten classes: the pool is
    9, 8, ..., 4, sliced in two parts of three. *)
Lemma split_selects_witness :
  ∃ indices parts,
    select_indices "from_back" 10 6 zeros = Ok indices ∧
    6 = sum_counts [3; 3] ∧
    Z.of_nat (length indices) = 6 ∧
    ("from_back" = "from_front" ->
     ∀ k : nat, (k < length indices)%nat ->
                indices !! k = Some (Z.of_nat k)) ∧
    ("from_back" = "from_back" ->
     ∀ k : nat, (k < length indices)%nat ->
                indices !! k = Some (10 - 1 - Z.of_nat k)) ∧
    ("from_back" = "random" ->
     NoDup indices ∧ (∀ i, i ∈ indices -> 0 ≤ i < 10) ∧
     ∀ target, NoDup target -> Z.of_nat (length target) = 6 ->
               (∀ i, i ∈ target -> 0 ≤ i < 10) ->
               ∃ rnd', select_indices "from_back" 10 6 rnd' = Ok target) ∧
    for_each consume (slices indices 0 [3; 3]) = Ok parts ∧
    concat parts = indices ∧
    Forall2 (fun part n => Z.of_nat (length part) = n) parts [3; 3] ∧
    split_of ten_classes zeros [DFloat 0.3; DFloat 0.3] "from_back" =
      (splits ← do_split value_le (scan_heap ten_classes)
                         (slices indices 0 [3; 3]);
       mret (Many splits)) (load ten_classes).
Proof.
  apply (SplitProps.split_selects
           (H := siamese_dataset value_le (scan_heap ten_classes))
           zeros [DFloat 0.3; DFloat 0.3] "from_back" (load ten_classes)
           6 [3; 3]).
  - vm_compute. reflexivity.
  - repeat constructor; lia.
Defined.

(** On three records, each in a class of its own, [one_shot_trial(3)] has
    [n] in range and returns nothing. *)
Lemma one_shot_trial_all_singletons :
  wfb (scan_heap singletons) (load singletons) = true ∧
  split_length (load singletons) = 3 ∧
  one_shot_trial (scan_heap singletons) (load singletons) zeros 3
  = Raise ValueError.
Proof. vm_compute. repeat split; reflexivity. Qed.

(** [one_shot_trial(2)] on the three records when the class of two is
    sampled first. *)
Lemma one_shot_trial_spec_witness :
  ∃ i0 i1 x0 x1 xs,
    one_shot_trial (scan_heap one_and_two) (load one_and_two) zeros 2
    = Ok (replicate 2 x0, x1 :: xs) ∧
    length (replicate 2 x0) = 2%nat ∧
    length (x1 :: xs) = 2%nat ∧
    i0 ∈ ({[1; 2]} : gset Z) ∧ i1 ∈ ({[1; 2]} : gset Z) ∧ i0 ≠ i1 ∧
    left_of (scan_heap one_and_two) (load one_and_two) i0 = Ok x0 ∧
    left_of (scan_heap one_and_two) (load one_and_two) i1 = Ok x1 ∧
    NoDup [VInt 1; VInt 0] ∧
    Forall2 (instance_of (scan_heap one_and_two) (load one_and_two))
            [VInt 0] xs.
Proof.
  destruct (TrialProps.one_shot_trial_spec (scan_heap one_and_two)
              (load one_and_two) zeros 2 wf_load_one_and_two) as [_ Hin].
  apply (Hin ltac:(vm_compute; split; discriminate)
             (VInt 1) [VInt 0] {[1; 2]}).
  - vm_compute. reflexivity.
  - vm_compute. reflexivity.
  - vm_compute. lia.
Defined.

(** [one_shot_trial(2)] on the three records when the class of one is
    sampled first. *)
Lemma one_shot_trial_singleton_witness :
  one_shot_trial (scan_heap one_and_two) (load one_and_two) ones 2
  = Raise ValueError.
Proof.
  apply (TrialProps.one_shot_trial_singleton (scan_heap one_and_two)
           (load one_and_two) ones 2 (VInt 0) [VInt 1] {[0]}).
  - vm_compute. split; discriminate.
  - vm_compute. reflexivity.
  - vm_compute. reflexivity.
  - vm_compute. lia.
Defined.

End Cases.

(** ** Facts about the classes [_do_split] moves *)

Module MoveFacts.
Import FE Siamese Props PyFacts SplitFacts ClassFacts.
Import MoveDefs.

(** A loop whose body is [f] followed by [g], when the [f] part succeeds
    throughout. *)
Lemma for_each_bind {A B C} (f : A -> result B) (g : B -> result C) l ys :
  for_each f l = Ok ys ->
  for_each (fun x => y ← f x; g y) l = for_each g ys.
Proof.
  revert ys. induction l as [|a l IH]; intros ys; simpl.
  - by intros [= <-].
  - destruct (f a) as [b|e]; simpl; [|done].
    destruct (for_each f l) as [bs|e] eqn:Hl; simpl; [|done].
    intros [= <-]. simpl. destruct (g b); simpl; [|done].
    by rewrite (IH bs).
Qed.

Lemma for_each_length {A B} (f : A -> result B) l ys :
  for_each f l = Ok ys -> length ys = length l.
Proof.
  revert ys. induction l as [|a l IH]; intros ys; simpl.
  - by intros [= <-].
  - destruct (f a); simpl; [|done].
    destruct (for_each f l) eqn:Hl; simpl; [|done].
    intros [= <-]. simpl. f_equal. by apply IH.
Qed.

Lemma for_each_Forall2 {A B} (f : A -> result B) l ys :
  for_each f l = Ok ys -> Forall2 (fun x y => f x = Ok y) l ys.
Proof.
  revert ys. induction l as [|a l IH]; intros ys; simpl.
  - intros [= <-]. constructor.
  - destruct (f a) eqn:Ha; simpl; [|done].
    destruct (for_each f l) eqn:Hl; simpl; [|done].
    intros [= <-]. constructor; [done|]. by apply IH.
Qed.

Lemma list_getitem_elem_of {A} (l : list A) i x :
  list_getitem l i = Ok x -> x ∈ l.
Proof.
  unfold list_getitem. destruct (_ || _); [done|].
  destruct (l !! _) eqn:Hl; [|done]. intros [= <-].
  by eapply list_elem_of_lookup_2.
Qed.

(** The body of a loop over a generator runs on what the generator
    yields. *)
Lemma gen_for_each_consume {B} (f : Z -> result B) g part :
  consume g = Ok part -> gen_for_each f g = for_each f part.
Proof.
  unfold consume, gen_for_each. intros Hc.
  assert (for_each (list_getitem (g_indices g)) (range (g_start g) (g_stop g))
          = Ok part) as Hp.
  { rewrite <- Hc. clear Hc. induction (range _ _) as [|a l IH]; simpl; [done|].
    destruct (list_getitem _ a); simpl; [|done]. by rewrite IH. }
  by apply for_each_bind.
Qed.

Section Dataset.
Context {V : Type} `{Countable V}.
Implicit Types (h : gmap loc (gmap string V)) (self : dataset (V:=V)).
Implicit Types (cd : gmap V (gset Z)).

(** Gathering the indices of the selected classes raises what selecting
    the classes raises, and nothing else. *)
Lemma gather_selected cd (keys : list V) g :
  (∀ c, c ∈ keys -> is_Some (cd !! c)) ->
  gen_for_each (B := list Z)
    (fun i => k ← list_getitem keys i;
              items ← dict_getitem cd k;
              Ok (elements items)) g
  = (ks ← selected keys g;
     Ok (fmap (M := list) (fun k : V => elements (cd !!! k)) ks)).
Proof.
  intros Hk. unfold selected, gen_for_each.
  induction (range _ _) as [|a l IH]; simpl; [done|].
  destruct (list_getitem (g_indices g) a) as [i|e]; simpl; [|done].
  destruct (list_getitem keys i) as [c|e] eqn:Hc; simpl; [|done].
  destruct (Hk c) as [items Hitems]; [by eapply list_getitem_elem_of|].
  assert (dict_getitem cd c = Ok items) as ->
    by (unfold dict_getitem; by rewrite Hitems).
  simpl. rewrite IH.
  match goal with
  | |- context [for_each ?f l] => destruct (for_each f l) as [cs|e]
  end; simpl; [|done].
  by rewrite (lookup_total_correct _ _ _ Hitems).
Qed.

(** Every record labelled, the loop of [_data_to_class] returns. *)
Lemma data_to_class_from_ok h label_key data cd0 :
  (∀ idx elem, (idx, elem) ∈ data -> ∃ c, field h elem label_key = Ok c) ->
  ∃ cd, data_to_class_from h label_key data cd0 = Ok cd.
Proof.
  revert cd0. induction data as [|[idx elem] rest IH]; intros cd0 Hl; simpl.
  - by exists cd0.
  - destruct (Hl idx elem) as [c ->]; [apply elem_of_cons; by left|]. simpl.
    apply IH. intros idx' elem' Hin. apply (Hl idx' elem').
    apply elem_of_cons. by right.
Qed.

End Dataset.

Lemma items_pop_sublist {A} (d : list (Z * A)) k v d' :
  items_pop d k = Some (v, d') -> sublist d' d.
Proof.
  revert d'. induction d as [|[k0 v0] d IH]; intros d'; simpl; [done|].
  case_bool_decide.
  - intros [= _ <-]. by apply sublist_cons.
  - destruct (items_pop d k) as [[x d1]|]; simpl; [|done].
    intros [= -> <-]. apply sublist_skip. by apply IH.
Qed.

(** Popping a key that is there removes its item and no other. *)
Lemma items_pop_Some {A} (d : list (Z * A)) k v :
  NoDup d.*1 -> (k, v) ∈ d ->
  ∃ d', items_pop d k = Some (v, d') ∧ NoDup d'.*1 ∧
        ∀ k' v', (k', v') ∈ d' ↔ (k', v') ∈ d ∧ k' ≠ k.
Proof.
  induction d as [|[k0 v0] d IH]; simpl; [by intros _ ?%elem_of_nil|].
  intros [Hk0 Hnd]%NoDup_cons Hin.
  assert (∀ k' v', (k', v') ∈ d -> k' ≠ k0) as Hne.
  { intros k' v' Hin' ->. apply Hk0, list_elem_of_fmap. by exists (k0, v'). }
  case_bool_decide as Hk.
  - subst k0. exists d. apply elem_of_cons in Hin as [[= ->]|Hin];
      [|by apply Hne in Hin].
    split_and!; [done|done|]. intros k' v'. rewrite elem_of_cons. split.
    + intros Hin'. split; [by right|by eapply Hne].
    + intros [[[= -> ->]|Hin'] Hk']; done.
  - apply elem_of_cons in Hin as [[= -> ->]|Hin]; [done|].
    destruct (IH Hnd Hin) as (d' & -> & Hnd' & Hd'). simpl.
    exists ((k0, v0) :: d'). split_and!; [done| |].
    + cbn [fmap list_fmap fst]. apply NoDup_cons. split; [|done].
      intros ([k1 v1] & -> & Hin1%Hd')%list_elem_of_fmap. simpl in *.
      destruct Hin1 as [Hin1 _]. by eapply Hne.
    + intros k' v'. rewrite !elem_of_cons, Hd'. split.
      * intros [[= -> ->]|[Hin' Hk']]; (split; [|done]); [by left|by right].
      * intros [[[= -> ->]|Hin'] Hk']; [by left|by right].
Qed.

Lemma elem_of_concat {A} (x : A) (ls : list (list A)) :
  x ∈ concat ls ↔ ∃ l, x ∈ l ∧ l ∈ ls.
Proof.
  induction ls as [|l ls IH]; simpl.
  - split; [by intros ?%elem_of_nil|by intros (? & _ & ?%elem_of_nil)].
  - rewrite elem_of_app, IH. split.
    + intros [?|(l' & ? & ?)].
      * exists l. split; [done|apply elem_of_cons; by left].
      * exists l'. split; [done|apply elem_of_cons; by right].
    + intros (l' & Hx & [->|?]%elem_of_cons); [by left|].
      right. by exists l'.
Qed.

Section Pops.
Context {V : Type} `{Countable V}.
Implicit Types (h : gmap loc (gmap string V)) (self s : dataset (V:=V)).

Lemma set_data_data s : set_data (data s) s = s.
Proof. by destruct s. Qed.

(** Popping keys that are there, each once, takes their records out and
    leaves the others. *)
Lemma pop_all_ok (L : list Z) : ∀ new_idx s,
  NoDup (data s).*1 -> NoDup L -> (∀ idx, idx ∈ L -> idx ∈ (data s).*1) ->
  ∃ popped d',
    pop_all new_idx L s = (Ok popped, set_data d' s) ∧
    NoDup d'.*1 ∧
    (∀ idx elem, (idx, elem) ∈ d' ↔ (idx, elem) ∈ data s ∧ idx ∉ L) ∧
    (∀ elem, elem ∈ popped.*2 ↔ ∃ idx, idx ∈ L ∧ (idx, elem) ∈ data s).
Proof.
  induction L as [|old rest IH]; intros new_idx s Hnd HL Hin; simpl.
  - exists [], (data s). rewrite set_data_data. split_and!; [done|done| |].
    + intros idx elem. split; [|by intros [? _]].
      intros ?. split; [done|]. apply not_elem_of_nil.
    + intros elem. split; [by intros ?%elem_of_nil|].
      by intros (? & ?%elem_of_nil & _).
  - apply NoDup_cons in HL as [Hold HL].
    assert (old ∈ (data s).*1) as ([k elem] & -> & Helem)%list_elem_of_fmap
      by (apply Hin, elem_of_cons; by left).
    simpl in *.
    destruct (items_pop_Some _ _ _ Hnd Helem) as (d1 & Hpop & Hnd1 & Hd1).
    destruct (IH (new_idx + 1) (set_data d1 s) Hnd1 HL)
      as (popped & d' & Hrest & Hnd' & Hd' & Hpopped).
    { intros idx Hidx. simpl.
      assert (idx ∈ (data s).*1) as ([k' e'] & -> & He')%list_elem_of_fmap
        by (apply Hin, elem_of_cons; by right).
      apply list_elem_of_fmap. exists (k', e'). split; [done|].
      apply Hd1. split; [done|]. simpl in *. by intros ->. }
    exists ((new_idx, elem) :: popped), d'.
    unfold mbind, M_bind, pop. rewrite Hpop, Hrest. simpl in *.
    split_and!; [done|done| |].
    + intros idx e. rewrite Hd', Hd1, not_elem_of_cons. tauto.
    + intros e. cbn [fmap list_fmap snd]. rewrite elem_of_cons.
      fold (fmap (M:=list) (@snd Z loc) popped). rewrite Hpopped. split.
      * intros [->|(idx & Hidx & [He _]%Hd1)].
        -- exists k. split; [apply elem_of_cons; by left|done].
        -- exists idx. split; [apply elem_of_cons; by right|done].
      * intros (idx & [->|Hidx]%elem_of_cons & He).
        -- left. apply (elem_of_items_get _ _ _ Hnd) in He, Helem. congruence.
        -- right. exists idx. split; [done|]. apply Hd1. split; [done|].
           by intros ->.
Qed.

(** The index sets of the classes [cs], one after the other. *)
Lemma elem_of_gathered (cd : gmap V (gset Z)) (cs : list V) idx :
  (∀ c, c ∈ cs -> is_Some (cd !! c)) ->
  idx ∈ concat ((fun k : V => elements (cd !!! k)) <$> cs) ↔
  ∃ c, c ∈ cs ∧ member cd c idx.
Proof.
  intros Hcs. rewrite elem_of_concat. split.
  - intros (l & Hidx & (c & -> & Hc)%list_elem_of_fmap).
    exists c. split; [done|]. destruct (Hcs c Hc) as [items Hitems].
    exists items. split; [done|].
    rewrite (lookup_total_correct _ _ _ Hitems) in Hidx.
    by apply elem_of_elements.
  - intros (c & Hc & items & Hitems & Hidx).
    exists (elements (cd !!! c)). split.
    + rewrite (lookup_total_correct _ _ _ Hitems). by apply elem_of_elements.
    + apply list_elem_of_fmap. by exists c.
Qed.

Lemma NoDup_gathered (cd : gmap V (gset Z)) (cs : list V) :
  NoDup cs ->
  (∀ c1 c2 items1 items2, c1 ≠ c2 -> cd !! c1 = Some items1 ->
                          cd !! c2 = Some items2 -> items1 ## items2) ->
  (∀ c, c ∈ cs -> is_Some (cd !! c)) ->
  NoDup (concat ((fun k : V => elements (cd !!! k)) <$> cs)).
Proof.
  intros Hnd Hdisj. induction Hnd as [|c cs Hc Hnd IH]; intros Hcs; simpl.
  - constructor.
  - apply NoDup_app. split_and!.
    + apply NoDup_elements.
    + intros idx Hidx Hidx'.
      apply elem_of_gathered in Hidx' as (c' & Hc' & items' & Hitems' & Hin');
        [|intros; apply Hcs, elem_of_cons; by right].
      destruct (Hcs c) as [items Hitems]; [apply elem_of_cons; by left|].
      rewrite (lookup_total_correct _ _ _ Hitems) in Hidx.
      apply elem_of_elements in Hidx.
      assert (c ≠ c') as Hne by (by intros ->).
      by apply (Hdisj _ _ _ _ Hne Hitems Hitems' idx).
    + apply IH. intros; apply Hcs, elem_of_cons; by right.
Qed.

(** In a dataset with its class index, a record's index is in the set of
    the record's label and of no other. *)
Lemma member_label h self idx elem c :
  NoDup (data self).*1 ->
  data_to_class h (data self) (label_key self) = Ok (class_data self) ->
  (idx, elem) ∈ data self ->
  member (class_data self) c idx ↔ field h elem (label_key self) = Ok c.
Proof.
  intros Hnd Hcd Hin. rewrite (data_to_class_member _ _ _ _ Hcd). split.
  - intros (elem' & Hin' & Hf).
    apply (elem_of_items_get _ _ _ Hnd) in Hin, Hin'. congruence.
  - intros Hf. by exists elem.
Qed.

Lemma member_key h self idx c :
  data_to_class h (data self) (label_key self) = Ok (class_data self) ->
  member (class_data self) c idx ->
  ∃ elem, (idx, elem) ∈ data self ∧ field h elem (label_key self) = Ok c.
Proof. intros Hcd Hm. by apply (data_to_class_member _ _ _ _ Hcd). Qed.

(** The classes of a computed class index are the labels of the
    records. *)
Lemma dom_data_to_class h (d : list (Z * loc)) lk cd c :
  data_to_class h d lk = Ok cd ->
  c ∈ dom cd ↔ ∃ elem, elem ∈ d.*2 ∧ field h elem lk = Ok c.
Proof.
  intros Hcd. rewrite elem_of_dom. split.
  - intros [items Hitems].
    assert (items ≠ ∅) as [idx Hidx]%set_choose_L.
    { eapply (data_to_class_from_nonempty _ _ _ _ _ Hcd); [|done].
      intros ??. by rewrite lookup_empty. }
    assert (member cd c idx) as (elem & Hin & Hf)%(data_to_class_member
                                                     _ _ _ _ Hcd)
      by (by exists items).
    exists elem. split; [|done]. apply list_elem_of_fmap. by exists (idx, elem).
  - intros (elem & ([idx e] & -> & Hin)%list_elem_of_fmap & Hf). simpl in *.
    assert (member cd c idx) as (items & Hitems & _).
    { apply (data_to_class_member _ _ _ _ Hcd). by exists e. }
    by exists items.
Qed.

End Pops.

(** The labels a generator selects are among the labels it selects
    from. *)
Lemma selected_elem_of {V} (keys : list V) g cs c :
  selected keys g = Ok cs -> c ∈ cs -> c ∈ keys.
Proof.
  intros Hsel%for_each_Forall2 Hc.
  induction Hsel as [|i' c' is' cs' Hi Hsel IH]; [by apply elem_of_nil in Hc|].
  apply elem_of_cons in Hc as [->|Hc]; [|auto].
  destruct (list_getitem (g_indices g) i') as [i|e]; simpl in Hi; [|done].
  by eapply list_getitem_elem_of.
Qed.

Section Moves.
Context {V : Type} `{Countable V}.
Context (V_le : relation V) `{!RelDecision V_le}.
Implicit Types (h : gmap loc (gmap string V)) (self s : dataset (V:=V)).

Lemma elem_of_sorted_keys self c :
  c ∈ sorted_keys V_le self ↔ is_Some (class_data self !! c).
Proof.
  unfold sorted_keys. rewrite merge_sort_Permutation, elem_of_elements.
  apply elem_of_dom.
Qed.

Lemma NoDup_sorted_keys self : NoDup (sorted_keys V_le self).
Proof.
  unfold sorted_keys. rewrite merge_sort_Permutation. apply NoDup_elements.
Qed.

(** One round of the loop of [_do_split]: the records of the selected
    classes move to the new dataset. *)
Lemma split_off_moves h self taken s g cs :
  NoDup (data self).*1 ->
  data_to_class h (data self) (label_key self) = Ok (class_data self) ->
  remains h self taken s ->
  selected (sorted_keys V_le self) g = Ok cs ->
  NoDup (taken ++ cs) ->
  ∃ r s', split_off V_le h g s = (Ok r, s') ∧
          holds_classes h self cs r ∧
          dom (class_data r) = list_to_set cs ∧
          remains h self (taken ++ cs) s'.
Proof.
  intros Hnd Hcd (Hcds & Hlk & Hnds & Hs) Hsel Hndc.
  apply NoDup_app in Hndc as (Hndt & Htc & Hndcs).
  assert (sorted_keys V_le s = sorted_keys V_le self) as Hkeys
    by (unfold sorted_keys; by rewrite Hcds).
  assert (∀ c, c ∈ cs -> is_Some (class_data self !! c)) as Hcs.
  { intros c Hc. apply elem_of_sorted_keys. by eapply selected_elem_of. }
  pose proof (data_to_class_index h self Hnd Hcd) as [_ Hdisj].
  set (L := concat ((fun k : V => elements (class_data self !!! k)) <$> cs)).
  assert (∀ idx, idx ∈ L ↔ ∃ c, c ∈ cs ∧ member (class_data self) c idx)
    as HL by (intros; by apply elem_of_gathered).
  destruct (pop_all_ok L 0 s Hnds) as (popped & d' & Hpop & Hnd' & Hd' & Hp).
  { by apply NoDup_gathered. }
  { intros idx (c & Hc & Hm)%HL.
    destruct (member_key h self idx c Hcd Hm) as (elem & Hin & Hf).
    apply list_elem_of_fmap. exists (idx, elem). split; [done|].
    apply Hs. split; [done|]. exists c. split; [|done].
    intros Ht. by apply (Htc c). }
  destruct (data_to_class_from_ok h (label_key self) popped ∅)
    as [cd' Hcd'].
  { intros idx elem Hin.
    assert (elem ∈ popped.*2) as (idx' & _ & [_ (c & _ & Hc)]%Hs)%Hp
      by (apply list_elem_of_fmap; by exists (idx, elem)).
    by exists c. }
  assert (holds_classes h self cs (skip_init popped cd' (set_data d' s)))
    as Hholds.
  { intros elem. simpl. rewrite Hp. split.
    + intros (idx & (c & Hc & Hm)%HL & [Hin _]%Hs). split.
      * apply list_elem_of_fmap. by exists (idx, elem).
      * exists c. split; [done|]. by apply (member_label h self idx elem c).
    + intros [([idx e] & -> & Hin)%list_elem_of_fmap (c & Hc & Hf)].
      simpl in *. exists idx. split.
      * apply HL. exists c. split; [done|].
        by apply (member_label h self idx e c).
      * apply Hs. split; [done|]. exists c. split; [|done].
        intros Ht. by apply (Htc c). }
  exists (skip_init popped cd' (set_data d' s)), (set_data d' s).
  split_and!.
  - unfold split_off, mbind at 1 2, M_bind, get, lift.
    rewrite Hkeys, Hcds, gather_selected, Hsel
      by (intros c; apply elem_of_sorted_keys).
    cbn [mbind result_bind fmap result_fmap]. fold L.
    unfold mbind at 1, M_bind. rewrite Hpop.
    unfold mbind, M_bind, lift, get. rewrite Hlk.
    unfold data_to_class. rewrite Hcd'. done.
  - done.
  - apply set_eq. intros c. rewrite elem_of_list_to_set. simpl.
    rewrite (dom_data_to_class h popped (label_key self) cd' c Hcd'). split.
    + intros (elem & [_ (c' & Hc' & Hf')]%Hholds & Hf). congruence.
    + intros Hc. destruct (Hcs c Hc) as [items Hitems].
      assert (c ∈ dom (class_data self)) as (elem & Hin & Hf)%(dom_data_to_class
                                                  h _ _ _ c Hcd)
        by (apply elem_of_dom; by exists items).
      exists elem. split; [|done]. apply Hholds. split; [done|]. by exists c.
  - split_and!; [done|done|done|]. intros idx elem. simpl.
    rewrite Hd', Hs. split.
    + intros [[Hin (c & Hc & Hf)] Hidx]. split; [done|].
      exists c. split; [|done]. intros [?|Hc']%elem_of_app; [done|].
      apply Hidx, HL. exists c. split; [done|].
      by apply (member_label h self idx elem c).
    + intros [Hin (c & Hc & Hf)]. apply not_elem_of_app in Hc as [Hct Hcc].
      split; [split; [done|by exists c]|].
      intros (c' & Hc' & Hm)%HL.
      apply (member_label h self idx elem c' Hnd Hcd Hin) in Hm. congruence.
Qed.

(** The loop of [_do_split]. *)
Lemma split_offs_move h self gens : ∀ taken s css,
  NoDup (data self).*1 ->
  data_to_class h (data self) (label_key self) = Ok (class_data self) ->
  remains h self taken s ->
  for_each (selected (sorted_keys V_le self)) gens = Ok css ->
  NoDup (taken ++ concat css) ->
  ∃ rs s', for_each_M (split_off V_le h) gens s = (Ok rs, s') ∧
           Forall2 (fun cs r => holds_classes h self cs r ∧
                                dom (class_data r) = list_to_set cs) css rs ∧
           remains h self (taken ++ concat css) s'.
Proof.
  induction gens as [|g gens IH]; intros taken s css Hnd Hcd Hs; simpl.
  - intros [= <-] _. exists [], s. simpl. rewrite app_nil_r.
    split_and!; [done|constructor|done].
  - destruct (selected _ g) as [cs|e] eqn:Hsel; simpl; [|done].
    destruct (for_each _ gens) as [css'|e] eqn:Hrest; simpl; [|done].
    intros [= <-] Hndc. simpl in Hndc. rewrite app_assoc in Hndc.
    pose proof Hndc as (Hndtc & _ & _)%NoDup_app.
    destruct (split_off_moves h self taken s g cs Hnd Hcd Hs Hsel Hndtc)
      as (r & s1 & Hr & Hholds & Hdom & Hs1).
    destruct (IH (taken ++ cs) s1 css' Hnd Hcd Hs1 eq_refl Hndc)
      as (rs & s' & Hrs & Hall & Hs').
    exists (r :: rs), s'. unfold mbind, M_bind. rewrite Hr, Hrs. simpl.
    rewrite app_assoc. split_and!; [done|by constructor|done].
Qed.

Lemma remains_start h self :
  NoDup (data self).*1 ->
  data_to_class h (data self) (label_key self) = Ok (class_data self) ->
  remains h self [] self.
Proof.
  intros Hnd Hcd. split_and!; [done|done|done|]. intros idx elem.
  split; [|by intros [? _]]. intros Hin. split; [done|].
  destruct (data_to_class_from_labelled _ _ _ _ _ Hcd _ _ Hin) as [c Hc].
  exists c. split; [apply not_elem_of_nil|done].
Qed.

(** [_do_split] on ordinals that select classes, each once. *)
Lemma do_split_moves h self splits css :
  NoDup (data self).*1 ->
  data_to_class h (data self) (label_key self) = Ok (class_data self) ->
  for_each (selected (sorted_keys V_le self)) splits = Ok css ->
  NoDup (concat css) ->
  ∃ results self',
    do_split V_le h splits self = (Ok results, self') ∧
    Forall2 (fun cs r => holds_classes h self cs r ∧
                         dom (class_data r) = list_to_set cs) css results ∧
    holds_others h self (concat css) self' ∧
    dom (class_data self')
    = dom (class_data self) ∖ list_to_set (concat css).
Proof.
  intros Hnd Hcd Hsel Hndc.
  destruct (split_offs_move h self splits [] self css Hnd Hcd
              (remains_start h self Hnd Hcd) Hsel Hndc)
    as (rs & s1 & Hrs & Hall & (Hcd1 & Hlk1 & Hnd1 & Hs1)).
  simpl in Hs1.
  assert (∀ elem, elem ∈ (data s1).*2 ↔
                  elem ∈ (data self).*2 ∧
                  ∃ c, (c ∉ concat css) ∧
                       field h elem (label_key self) = Ok c) as Hothers.
  { intros elem. rewrite !list_elem_of_fmap. split.
    - intros ([idx e] & -> & [Hin Hc]%Hs1). split; [|done]. by exists (idx, e).
    - intros [([idx e] & -> & Hin) Hc]. exists (idx, e). split; [done|].
      by apply Hs1. }
  destruct (data_to_class_from_ok h (label_key self)
              (enumerate 0 (data s1).*2) ∅) as [cd' Hcd'].
  { intros idx elem Hin.
    assert (elem ∈ (data s1).*2) as [_ (c & _ & Hc)]%Hothers.
    { rewrite <- (snd_enumerate (data s1).*2 0).
      apply list_elem_of_fmap. by exists (idx, elem). }
    by exists c. }
  exists rs, (set_class_data cd' (set_data (enumerate 0 (data s1).*2) s1)).
  split_and!; [|done| |].
  - unfold do_split, mbind at 1, M_bind. rewrite Hrs.
    unfold mbind, M_bind, get, put, lift. simpl. rewrite Hlk1.
    unfold data_to_class. by rewrite Hcd'.
  - intros elem. simpl. by rewrite snd_enumerate.
  - apply set_eq. intros c. simpl.
    rewrite elem_of_difference, elem_of_list_to_set.
    rewrite (dom_data_to_class h _ _ _ c Hcd').
    rewrite (dom_data_to_class h _ _ _ c Hcd). rewrite snd_enumerate. split.
    + intros (elem & [Hin (c' & Hc' & Hf')]%Hothers & Hf).
      assert (c' = c) as -> by congruence. split; [by exists elem|done].
    + intros [(elem & Hin & Hf) Hc]. exists elem. split; [|done].
      apply Hothers. split; [done|]. by exists c.
Qed.

End Moves.

End MoveFacts.

(** ** Facts about the index pool *)

Module PoolFacts.
Import FE Siamese Props PyFacts SplitFacts MoveDefs.
Import MoveFacts.

Lemma for_each_app {A B} (f : A -> result B) l1 l2 :
  for_each f (l1 ++ l2) =
  ys1 ← for_each f l1; ys2 ← for_each f l2; Ok (ys1 ++ ys2).
Proof.
  induction l1 as [|a l1 IH]; simpl.
  - by destruct (for_each f l2).
  - destruct (f a); simpl; [|done]. rewrite IH.
    destruct (for_each f l1); simpl; [|done].
    by destruct (for_each f l2).
Qed.

Lemma for_each_concat {A B} (f : A -> result B) ls yss :
  for_each (for_each f) ls = Ok yss ->
  for_each f (concat ls) = Ok (concat yss).
Proof.
  revert yss. induction ls as [|l ls IH]; intros yss; simpl.
  - by intros [= <-].
  - destruct (for_each f l) as [ys|e] eqn:Hl; simpl; [|done].
    destruct (for_each (for_each f) ls) as [yss'|e] eqn:Hls; simpl; [|done].
    intros [= <-]. rewrite for_each_app, Hl, (IH yss') by done. done.
Qed.

Lemma list_getitem_lookup {A} (l : list A) i x :
  0 ≤ i -> list_getitem l i = Ok x -> l !! Z.to_nat i = Some x.
Proof.
  intros Hi. unfold list_getitem.
  destruct (i <? 0) eqn:E; [lia|].
  destruct (_ || _); [done|].
  destruct (l !! _); [|done]. by intros [= <-].
Qed.

Lemma list_getitem_in_range {A} (l : list A) i :
  0 ≤ i < Z.of_nat (length l) -> ∃ x, list_getitem l i = Ok x.
Proof.
  intros Hi. destruct (lookup_lt_is_Some_2 l (Z.to_nat i)) as [x Hx]; [lia|].
  exists x. apply list_getitem_ok; [lia|done].
Qed.

(** Reading a list at positions inside it returns. *)
Lemma getitems_ok {A} (l : list A) (positions : list Z) :
  (∀ i, i ∈ positions -> 0 ≤ i < Z.of_nat (length l)) ->
  ∃ xs, for_each (list_getitem l) positions = Ok xs.
Proof.
  induction positions as [|i rest IH]; intros Hr; simpl; [by exists []|].
  destruct (list_getitem_in_range l i) as [x ->];
    [apply Hr, elem_of_cons; by left|].
  destruct IH as [xs ->]; [intros; apply Hr, elem_of_cons; by right|].
  by exists (x :: xs).
Qed.

(** Different positions of a list without duplicates hold different
    elements. *)
Lemma getitems_NoDup {A} (l : list A) (positions : list Z) xs :
  NoDup l -> NoDup positions -> (∀ i, i ∈ positions -> 0 ≤ i) ->
  for_each (list_getitem l) positions = Ok xs -> NoDup xs.
Proof.
  intros Hl Hp Hnn Hxs%for_each_Forall2.
  induction Hxs as [|i x positions xs Hi Hxs IH]; [constructor|].
  apply NoDup_cons in Hp as [Hip Hp].
  assert (0 ≤ i) as Hi0 by (apply Hnn, elem_of_cons; by left).
  apply list_getitem_lookup in Hi; [|done].
  constructor.
  - intros Hx. apply Hip. clear IH Hip Hp.
    induction Hxs as [|j y positions xs Hj Hxs IH];
      [by apply elem_of_nil in Hx|].
    assert (0 ≤ j) as Hj0
      by (apply Hnn, elem_of_cons; right; apply elem_of_cons; by left).
    apply elem_of_cons in Hx as [<-|Hx].
    + apply list_getitem_lookup in Hj; [|done].
      pose proof (NoDup_lookup _ _ _ _ Hl Hi Hj).
      apply elem_of_cons. left. lia.
    + apply elem_of_cons. right. apply IH; [|done].
      intros k [->|Hk]%elem_of_cons; apply Hnn.
      * apply elem_of_cons. by left.
      * apply elem_of_cons. right. apply elem_of_cons. by right.
  - apply IH; [done|]. intros; apply Hnn, elem_of_cons. by right.
Qed.

(** The pool of a call that passed validation with a count sum that is
    not negative. *)
Lemma select_indices_pool method size int_sum rnd :
  method ∈ split_types -> 0 ≤ int_sum < size ->
  ∃ indices, select_indices method size int_sum rnd = Ok indices ∧
             NoDup indices ∧ (∀ i, i ∈ indices -> 0 ≤ i < size) ∧
             Z.of_nat (length indices) = int_sum.
Proof.
  intros Hm Hs. unfold select_indices, random_sample, range, range_down.
  repeat case_bool_decide.
  - rewrite length_seqZ.
    destruct (int_sum <? 0) eqn:E1; [exfalso; lia|].
    destruct (Z.of_nat (Z.to_nat (size - 0)) <? int_sum) eqn:E2;
      [exfalso; apply Z.ltb_lt in E2; lia|].
    simpl. eexists. split; [done|]. split_and!.
    + apply NoDup_draw, NoDup_seqZ.
    + intros i Hi. apply draw_subseteq, elem_of_seqZ in Hi. lia.
    + rewrite length_draw; [lia|]. rewrite length_seqZ. lia.
  - eexists. split; [done|]. split_and!.
    + apply NoDup_seqZ.
    + intros i Hi%elem_of_seqZ. lia.
    + rewrite length_seqZ. lia.
  - eexists. split; [done|]. split_and!.
    + apply NoDup_fmap_2; [|apply NoDup_seqZ]. intros ???. lia.
    + intros i (k & -> & Hk%elem_of_seqZ)%list_elem_of_fmap. lia.
    + rewrite length_fmap, length_seqZ. lia.
  - exfalso. unfold split_types in Hm.
    repeat (apply elem_of_cons in Hm as [?|Hm]; [done|]).
    by apply elem_of_nil in Hm.
Qed.

Lemma selected_consume {V} (keys : list V) g part :
  consume g = Ok part -> selected keys g = for_each (list_getitem keys) part.
Proof. apply gen_for_each_consume. Qed.

(** The classes the generators select are read off the slices they
    yield. *)
Lemma selected_parts {V} (keys : list V) gens : ∀ parts,
  for_each consume gens = Ok parts ->
  for_each (selected keys) gens = for_each (for_each (list_getitem keys)) parts.
Proof.
  induction gens as [|g gens IH]; intros parts; simpl.
  - by intros [= <-].
  - destruct (consume g) as [part|e] eqn:Hg; simpl; [|done].
    destruct (for_each consume gens) as [parts'|e]; simpl; [|done].
    intros [= <-]. simpl.
    rewrite (selected_consume _ _ _ Hg), (IH parts') by done. done.
Qed.

End PoolFacts.

(** ** [_do_split] on the slices of a pool *)

Module SliceFacts.
Import FE Siamese Props PyFacts SplitFacts ClassFacts.
Import MoveDefs MoveFacts PoolFacts.

(** [split] after its checks and the choice of the pool. *)
Lemma split_run `{FEDataset D} rnd fractions method (self : D)
    int_sum n_samples indices :
  validate (FE.len self) fractions method = Ok (int_sum, n_samples) ->
  select_indices method (FE.len self) int_sum rnd = Ok indices ->
  split rnd fractions method self =
  (splits ← FE.do_split (slices indices 0 n_samples);
   if bool_decide (length fractions = 1%nat) then
     d ← lift (list_getitem splits 0); mret (One d)
   else mret (Many splits)) self.
Proof.
  intros Hv Hsel. unfold split, mbind at 1 2 3, M_bind, get, lift.
  rewrite Hv. simpl. by rewrite Hsel.
Qed.

Lemma validate_length original_size fractions method int_sum n_samples :
  validate original_size fractions method = Ok (int_sum, n_samples) ->
  length n_samples = length fractions ∧ int_sum = sum_counts n_samples ∧
  int_sum < original_size ∧ method ∈ split_types.
Proof.
  intros (Hm & Hns%for_each_length & Hsum & Hlt)%validate_ok. done.
Qed.

Lemma length_slices indices n_samples : ∀ start,
  length (slices indices start n_samples) = length n_samples.
Proof. induction n_samples; intros; simpl; [done|by f_equal]. Qed.

(** What [split] returns holds the datasets [_do_split] returned, one per
    descriptor. *)
Lemma split_returns {D} (fractions : list descriptor) (results : list D)
    (self' : D) :
  length results = length fractions -> fractions ≠ [] ->
  ∃ res,
    (if bool_decide (length fractions = 1%nat) then
       d ← lift (list_getitem results 0); mret (One d)
     else mret (Many results)) self' = (Ok res, self') ∧
    produced res = results.
Proof.
  intros Hlen Hne. case_bool_decide as H1.
  - destruct results as [|d [|??]]; simpl in *; try lia.
    exists (One d). unfold mbind, M_bind, lift.
    by rewrite list_getitem_0.
  - by exists (Many results).
Qed.

Lemma validate_nonempty original_size fractions method r :
  validate original_size fractions method = Ok r -> fractions ≠ [].
Proof. unfold validate. case_bool_decide; [done|]. by destruct fractions. Qed.

(** [split] returns what [_do_split] returned. *)
Lemma split_of_results `{FEDataset D} rnd fractions method (self : D)
    int_sum n_samples indices results self' :
  validate (FE.len self) fractions method = Ok (int_sum, n_samples) ->
  select_indices method (FE.len self) int_sum rnd = Ok indices ->
  FE.do_split (slices indices 0 n_samples) self = (Ok results, self') ->
  length results = length fractions ->
  ∃ res, split rnd fractions method self = (Ok res, self') ∧
         produced res = results.
Proof.
  intros Hv Hsel Hsplit Hlen.
  destruct (split_returns fractions results self' Hlen) as (res & Hres & Hp);
    [by eapply validate_nonempty|].
  exists res. split; [|done].
  rewrite (split_run rnd fractions method self _ _ _ Hv Hsel).
  unfold mbind at 1, M_bind. rewrite Hsplit. exact Hres.
Qed.

(** [split] raises what [_do_split] raised. *)
Lemma split_of_raise `{FEDataset D} rnd fractions method (self : D)
    int_sum n_samples indices e self' :
  validate (FE.len self) fractions method = Ok (int_sum, n_samples) ->
  select_indices method (FE.len self) int_sum rnd = Ok indices ->
  FE.do_split (slices indices 0 n_samples) self = (Raise e, self') ->
  split rnd fractions method self = (Raise e, self').
Proof.
  intros Hv Hsel Hsplit.
  rewrite (split_run rnd fractions method self _ _ _ Hv Hsel).
  unfold mbind at 1, M_bind. by rewrite Hsplit.
Qed.

Lemma length_for_each_M {S A B} (f : A -> M S B) l : ∀ s ys s',
  for_each_M f l s = (Ok ys, s') -> length ys = length l.
Proof.
  induction l as [|a l IH]; intros s ys s'; simpl.
  - by intros [= <- _].
  - unfold mbind, M_bind. destruct (f a s) as [[y|e] s1]; [|done].
    destruct (for_each_M f l s1) as [[ys'|e] s2] eqn:Hl; [|done].
    intros [= <- _]. simpl. f_equal. by eapply IH.
Qed.

Section Slices.
Context {V : Type} `{Countable V}.
Context (V_le : relation V) `{!RelDecision V_le}.
Implicit Types (h : gmap loc (gmap string V)) (self s : dataset (V:=V)).

Lemma length_sorted_keys self :
  Z.of_nat (length (sorted_keys V_le self)) = split_length self.
Proof.
  unfold sorted_keys, split_length.
  by rewrite merge_sort_Permutation, <- size_dom.
Qed.

(** [_do_split] returns one dataset per generator. *)
Lemma do_split_count h gens s results s' :
  do_split V_le h gens s = (Ok results, s') ->
  length results = length gens.
Proof.
  unfold do_split, mbind at 1, M_bind.
  destruct (for_each_M _ gens s) as [[rs|e] s1] eqn:Hfor; [|done].
  unfold mbind, M_bind, get, put, lift. simpl.
  destruct (data_to_class _ _ _); [|done]. intros [= <- _].
  by eapply length_for_each_M.
Qed.

(** [_do_split] on the slices of a pool of class ordinals. *)
Lemma slices_move h self indices n_samples :
  NoDup (data self).*1 ->
  data_to_class h (data self) (label_key self) = Ok (class_data self) ->
  NoDup indices -> (∀ i, i ∈ indices -> 0 ≤ i < split_length self) ->
  Forall (fun n => 0 ≤ n) n_samples ->
  sum_counts n_samples = Z.of_nat (length indices) ->
  ∃ parts css results self',
    for_each consume (slices indices 0 n_samples) = Ok parts ∧
    concat parts = indices ∧
    for_each (for_each (list_getitem (sorted_keys V_le self))) parts
    = Ok css ∧
    NoDup (concat css) ∧
    Forall2 (fun cs n => Z.of_nat (length cs) = n) css n_samples ∧
    do_split V_le h (slices indices 0 n_samples) self = (Ok results, self') ∧
    Forall2 (fun cs r => holds_classes h self cs r ∧
                         dom (class_data r) = list_to_set cs) css results ∧
    holds_others h self (concat css) self' ∧
    dom (class_data self')
    = dom (class_data self) ∖ list_to_set (concat css).
Proof.
  intros Hnd Hcd Hndi Hr Hnn Hsum.
  destruct (slices_spec indices n_samples 0 Hnn)
    as (parts & Hparts & Hcat & Hlens); [lia|lia|].
  rewrite drop_0, take_ge in Hcat by lia.
  assert (∃ css, for_each (for_each (list_getitem (sorted_keys V_le self)))
                   parts = Ok css) as [css Hcss].
  { destruct (for_each _ parts) as [css|e] eqn:Hcss; [by exists css|].
    apply for_each_raised in Hcss as (part & Hpart & Hraise).
    apply for_each_raised in Hraise as (i & Hi & Hraise).
    destruct (list_getitem_in_range (sorted_keys V_le self) i) as [x Hx];
      [|congruence].
    rewrite length_sorted_keys. apply Hr. rewrite <- Hcat.
    apply elem_of_concat. by exists part. }
  pose proof (for_each_concat _ _ _ Hcss) as Hflat. rewrite Hcat in Hflat.
  assert (NoDup (concat css)) as Hndc.
  { eapply getitems_NoDup;
      [apply (NoDup_sorted_keys V_le)|exact Hndi| |exact Hflat].
    intros i Hi. by apply Hr. }
  assert (Forall2 (fun cs n => Z.of_nat (length cs) = n) css n_samples)
    as Hcount.
  { apply for_each_Forall2, Forall2_flip in Hcss.
    eapply Forall2_trans; [|exact Hcss|exact Hlens].
    simpl. intros cs part n Hcs%for_each_length <-. by rewrite Hcs. }
  destruct (do_split_moves V_le h self (slices indices 0 n_samples) css
              Hnd Hcd) as (results & self' & Hsplit & Hall & Hothers & Hdom);
    [by rewrite (selected_parts _ _ _ Hparts)|done|].
  by exists parts, css, results, self'.
Qed.

(** A call of [split] on a dataset with unique record keys and its class
    index that passes the checks with counts that are not negative: the
    pool is a pool of class ordinals, and the call returns what [_do_split]
    makes of its slices. *)
Lemma split_valid h (rnd : tape) fractions method self int_sum n_samples :
  NoDup (data self).*1 ->
  data_to_class h (data self) (label_key self) = Ok (class_data self) ->
  validate (split_length self) fractions method = Ok (int_sum, n_samples) ->
  Forall (fun n => 0 ≤ n) n_samples ->
  ∃ indices parts css res self',
    select_indices method (split_length self) int_sum rnd = Ok indices ∧
    for_each consume (slices indices 0 n_samples) = Ok parts ∧
    concat parts = indices ∧
    for_each (for_each (list_getitem (sorted_keys V_le self))) parts
    = Ok css ∧
    NoDup (concat css) ∧
    Forall2 (fun cs n => Z.of_nat (length cs) = n) css n_samples ∧
    split (H := siamese_dataset V_le h) rnd fractions method self
    = (Ok res, self') ∧
    Forall2 (fun cs r => holds_classes h self cs r ∧
                         dom (class_data r) = list_to_set cs)
            css (produced res) ∧
    holds_others h self (concat css) self' ∧
    dom (class_data self')
    = dom (class_data self) ∖ list_to_set (concat css).
Proof.
  intros Hnd Hcd Hv Hnn.
  destruct (validate_length _ _ _ _ _ Hv) as (Hlen & Hsum & Hlt & Hm).
  pose proof (sum_counts_nonneg _ Hnn) as H0.
  destruct (select_indices_pool method (split_length self) int_sum rnd Hm)
    as (indices & Hsel & Hndi & Hri & Hli); [lia|].
  destruct (slices_move h self indices n_samples Hnd Hcd Hndi Hri Hnn)
    as (parts & css & results & self' & Hparts & Hcat & Hcss & Hndc & Hcount
        & Hsplit & Hall & Hothers & Hdom); [lia|].
  destruct (split_of_results (H := siamese_dataset V_le h) rnd fractions
              method self int_sum n_samples indices results self' Hv Hsel
              Hsplit) as (res & Hres & Hprod).
  { rewrite <- (Forall2_length _ _ _ Hall), (Forall2_length _ _ _ Hcount).
    done. }
  exists indices, parts, css, res, self'. rewrite Hprod. by split_and!.
Qed.

End Slices.

End SliceFacts.

(** ** Facts about counting the classes moved *)

Module CountFacts.
Import FE Siamese Props PyFacts SplitFacts ClassFacts.
Import MoveDefs MoveFacts PoolFacts SliceFacts.




Section Dataset.
Context {V : Type} `{Countable V}.
Implicit Types (h : gmap loc (gmap string V)) (self s : dataset (V:=V)).




End Dataset.

End CountFacts.

(** ** [SiameseDirDataset.split]: the length it resolves against *)

Module SplitLength.
Import FE Siamese Props PyFacts SplitFacts ClassFacts.
Import MoveDefs MoveFacts PoolFacts SliceFacts CountFacts.

Section Dataset.
Context {V : Type} `{Countable V}.
Context (V_le : relation V) `{!RelDecision V_le}.
Implicit Types (h : gmap loc (gmap string V)) (self s : dataset (V:=V)).



End Dataset.

End SplitLength.

(** ** [SiameseDirDataset.split]: the classes it moves *)

Module SplitMoves.
Import FE Siamese Props PyFacts SplitFacts ClassFacts.
Import MoveDefs MoveFacts PoolFacts SliceFacts.

Section Dataset.
Context {V : Type} `{Countable V}.
Context (V_le : relation V) `{!RelDecision V_le}.
Implicit Types (h : gmap loc (gmap string V)) (self s : dataset (V:=V)).

(** X1. [split] on a [SiameseDirDataset] moves whole classes. For a
    dataset with unique record keys and its class index and a call that
    passes validation with counts that are not negative: the call returns;
    the slices of the pool are read as ordinals into the sorted class
    labels, giving one list of classes [cs] per descriptor; the dataset
    produced for a descriptor holds exactly the records of the source that
    carry a label of its [cs], and its class index has exactly the classes
    [cs]; the source keeps exactly the records of the classes that were not
    selected, and its class index loses the selected classes. *)
Theorem split_moves_classes h (rnd : tape) (fractions : list descriptor)
    (method : string) self int_sum n_samples indices :
  NoDup (data self).*1 ->
  data_to_class h (data self) (label_key self) = Ok (class_data self) ->
  validate (split_length self) fractions method = Ok (int_sum, n_samples) ->
  Forall (fun n => 0 ≤ n) n_samples ->
  select_indices method (split_length self) int_sum rnd = Ok indices ->
  ∃ parts css res self',
    for_each consume (slices indices 0 n_samples) = Ok parts ∧
    concat parts = indices ∧
    for_each (for_each (list_getitem (sorted_keys V_le self))) parts
    = Ok css ∧
    split (H := siamese_dataset V_le h) rnd fractions method self
    = (Ok res, self') ∧
    Forall2 (fun cs r => holds_classes h self cs r ∧
                         dom (class_data r) = list_to_set cs)
            css (produced res) ∧
    holds_others h self (concat css) self' ∧
    dom (class_data self')
    = dom (class_data self) ∖ list_to_set (concat css).
Proof.
  intros Hnd Hcd Hv Hnn Hsel.
  destruct (split_valid V_le h rnd fractions method self int_sum n_samples
              Hnd Hcd Hv Hnn)
    as (indices' & parts & css & res & self' & Hsel' & Hparts & Hcat & Hcss
        & _ & _ & Hres & Hall & Hothers & Hdom).
  rewrite Hsel in Hsel'. injection Hsel' as <-.
  by exists parts, css, res, self'.
Qed.

(** X3. A [split] with a single descriptor that raises, whatever it
    raises, leaves a dataset with unique record keys and its class index as
    it was: with one generator, the only step of [_do_split] that can
    fail comes before the first record is popped. *)
Theorem single_split_atomic h (rnd : tape) (d : descriptor)
    (method : string) self e self' :
  NoDup (data self).*1 ->
  data_to_class h (data self) (label_key self) = Ok (class_data self) ->
  split (H := siamese_dataset V_le h) rnd [d] method self = (Raise e, self') ->
  self' = self.
Proof.
  intros Hnd Hcd Hraise.
  destruct (validate (split_length self) [d] method)
    as [[int_sum n_samples]|e0] eqn:Hv.
  2:{ unfold split, mbind, M_bind, get, lift in Hraise. simpl in Hraise.
      rewrite Hv in Hraise. by injection Hraise as _ <-. }
  destruct (select_indices method (split_length self) int_sum rnd)
    as [indices|e0] eqn:Hsel.
  2:{ unfold split, mbind, M_bind, get, lift in Hraise. simpl in Hraise.
      rewrite Hv, Hsel in Hraise. by injection Hraise as _ <-. }
  exfalso.
  destruct (validate_length _ _ _ _ _ Hv) as (Hlen & Hsum & Hlt & Hm).
  destruct n_samples as [|n [|??]]; try done. simpl in Hsum.
  destruct (decide (0 ≤ n)) as [Hn|Hn].
  - destruct (split_valid V_le h rnd [d] method self int_sum [n] Hnd Hcd Hv)
      as (_ & _ & _ & res & s' & _ & _ & _ & _ & _ & _ & Hres & _);
      [by constructor|congruence].
  - assert (for_each (selected (sorted_keys V_le self)) (slices indices 0 [n])
            = Ok [[]]) as Hcss.
    { simpl. unfold selected, gen_for_each, range. simpl.
      rewrite seqZ_nil by lia. done. }
    destruct (do_split_moves V_le h self (slices indices 0 [n]) [[]] Hnd Hcd
                Hcss) as (results & s' & Hsplit & _); [constructor|].
    destruct (split_of_results (H := siamese_dataset V_le h) rnd [d] method
                self int_sum [n] indices results s' Hv Hsel Hsplit)
      as (res & Hres & _); [|congruence].
    by apply do_split_count in Hsplit.
Qed.

End Dataset.

End SplitMoves.

(** ** What [_do_split] keeps *)

Module KeepFacts.
Import FE Siamese Props PyFacts SplitFacts ClassFacts.
Import MoveFacts.

Section Dataset.
Context {V : Type} `{Countable V}.
Context (V_le : relation V) `{!RelDecision V_le}.
Implicit Types (h : gmap loc (gmap string V)) (self s : dataset (V:=V)).

(** However the pops end, they took records out and did nothing else. *)
Lemma pop_all_kept (L : list Z) : ∀ new_idx s x s',
  pop_all new_idx L s = (x, s') ->
  class_data s' = class_data s ∧ sublist (data s') (data s).
Proof.
  induction L as [|old rest IH]; intros new_idx s x s'; simpl.
  - by intros [= _ <-].
  - unfold mbind, M_bind, pop.
    destruct (items_pop (data s) old) as [[v d0]|] eqn:Hpop;
      [|by intros [= _ <-]].
    apply items_pop_sublist in Hpop.
    destruct (pop_all (new_idx + 1) rest (set_data d0 s)) as [[d1|e] s1]
      eqn:Hrest; intros [= _ <-];
      destruct (IH _ _ _ _ Hrest) as [Hcd Hsub]; simpl in *;
      (split; [done|by etrans]).
Qed.

Lemma split_off_kept h g s x s' :
  split_off V_le h g s = (x, s') ->
  class_data s' = class_data s ∧ sublist (data s') (data s).
Proof.
  unfold split_off, mbind at 1 2, M_bind, get, lift.
  destruct (_ <$> gen_for_each _ g) as [idxs|e]; [|by intros [= _ <-]].
  unfold mbind at 1, M_bind.
  destruct (pop_all 0 idxs s) as [[d|e] s1] eqn:Hpop;
    apply pop_all_kept in Hpop; [|by intros [= _ <-]].
  unfold mbind, M_bind, lift.
  destruct (data_to_class h d (label_key s)); by intros [= _ <-].
Qed.

Lemma split_offs_kept h gens : ∀ s x s',
  for_each_M (split_off V_le h) gens s = (x, s') ->
  class_data s' = class_data s ∧ sublist (data s') (data s).
Proof.
  induction gens as [|g gens IH]; intros s x s'; simpl.
  - by intros [= _ <-].
  - unfold mbind, M_bind.
    destruct (split_off V_le h g s) as [[r|e] s0] eqn:Hg;
      apply split_off_kept in Hg as [Hcd Hsub]; [|by intros [= _ <-]].
    destruct (for_each_M _ gens s0) as [[rs|e] s1] eqn:Hrest;
      apply IH in Hrest as [Hcd' Hsub']; intros [= _ <-];
      (split; [congruence|by etrans]).
Qed.

(** [_do_split] that raises has not rebuilt the class index. *)
Lemma do_split_kept h gens s e s' :
  do_split V_le h gens s = (Raise e, s') ->
  class_data s' = class_data s ∧ sublist (data s').*2 (data s).*2.
Proof.
  unfold do_split, mbind at 1, M_bind.
  destruct (for_each_M _ gens s) as [[rs|e0] s1] eqn:Hfor;
    apply split_offs_kept in Hfor as [Hcd Hsub].
  - unfold mbind, M_bind, get, put, lift. simpl.
    destruct (data_to_class _ _ _); [done|]. intros [= _ <-]. simpl.
    rewrite snd_enumerate. split; [done|by apply fmap_sublist].
  - intros [= _ <-]. split; [done|by apply fmap_sublist].
Qed.

End Dataset.

End KeepFacts.

(** ** [SiameseDirDataset.split]: what it keeps *)

Module SplitKeeps.
Import FE Siamese Props PyFacts SplitFacts ClassFacts.
Import MoveFacts SliceFacts KeepFacts.

Section Dataset.
Context {V : Type} `{Countable V}.
Context (V_le : relation V) `{!RelDecision V_le}.
Implicit Types (h : gmap loc (gmap string V)) (self s : dataset (V:=V)).

(** X4. Whatever the dataset, a [split] that raises has not rebuilt the
    class index: the dataset it leaves has the class index it had before
    the call, and its records are records it had, in their order; the ones
    [_do_split] popped before it raised are gone. *)
Theorem split_failure_keeps_index h (rnd : tape)
    (fractions : list descriptor) (method : string) self e self' :
  split (H := siamese_dataset V_le h) rnd fractions method self
  = (Raise e, self') ->
  class_data self' = class_data self ∧
  sublist (data self').*2 (data self).*2.
Proof.
  intros Hraise.
  destruct (validate (split_length self) fractions method)
    as [[int_sum n_samples]|e0]
    eqn:Hv.
  2:{ unfold split, mbind, M_bind, get, lift in Hraise. simpl in Hraise.
      rewrite Hv in Hraise. by injection Hraise as _ <-. }
  destruct (select_indices method (split_length self) int_sum rnd)
    as [indices|e0]
    eqn:Hsel.
  2:{ unfold split, mbind, M_bind, get, lift in Hraise. simpl in Hraise.
      rewrite Hv, Hsel in Hraise. by injection Hraise as _ <-. }
  destruct (do_split V_le h (slices indices 0 n_samples) self)
    as [[results|e0] s1] eqn:Hsplit.
  - destruct (split_of_results (H := siamese_dataset V_le h) rnd fractions
                method self int_sum n_samples indices results s1 Hv Hsel
                Hsplit) as (res & Hres & _); [|congruence].
    apply do_split_count in Hsplit. rewrite Hsplit, length_slices.
    by destruct (validate_length _ _ _ _ _ Hv).
  - rewrite (split_of_raise (H := siamese_dataset V_le h) rnd fractions
               method self int_sum n_samples indices e0 s1 Hv Hsel Hsplit)
      in Hraise.
    injection Hraise as _ <-. by eapply do_split_kept.
Qed.

(** X5. When [split] on a [SiameseDirDataset] returns, it returns one
    dataset per descriptor; every record of the source is in exactly one
    place, one of the produced datasets or what is left of the source; and
    the lengths add up. *)
Theorem split_conserves h (rnd : tape) (fractions : list descriptor)
    (method : string) self res self' :
  split (H := siamese_dataset V_le h) rnd fractions method self
  = (Ok res, self') ->
  length (produced res) = length fractions ∧
  (data self).*2 ≡ₚ
    concat ((fun r => (data r).*2) <$> produced res) ++ (data self').*2 ∧
  len self = len self' + foldr Z.add 0 (len <$> produced res).
Proof.
  intros Hok.
  destruct (validate (split_length self) fractions method)
    as [[int_sum n_samples]|e0]
    eqn:Hv.
  2:{ unfold split, mbind, M_bind, get, lift in Hok. simpl in Hok.
      by rewrite Hv in Hok. }
  destruct (select_indices method (split_length self) int_sum rnd)
    as [indices|e0]
    eqn:Hsel.
  2:{ unfold split, mbind, M_bind, get, lift in Hok. simpl in Hok.
      by rewrite Hv, Hsel in Hok. }
  destruct (do_split V_le h (slices indices 0 n_samples) self)
    as [[results|e0] s1] eqn:Hsplit.
  2:{ by rewrite (split_of_raise (H := siamese_dataset V_le h) rnd fractions
                    method self int_sum n_samples indices e0 s1 Hv Hsel
                    Hsplit) in Hok. }
  assert (length results = length fractions) as Hlen.
  { rewrite (do_split_count _ _ _ _ _ _ Hsplit), length_slices.
    by destruct (validate_length _ _ _ _ _ Hv). }
  destruct (split_of_results (H := siamese_dataset V_le h) rnd fractions
              method self int_sum n_samples indices results s1 Hv Hsel
              Hsplit Hlen) as (res' & Hres & Hprod).
  rewrite Hres in Hok. injection Hok as -> ->. rewrite Hprod.
  split_and!; [done| |].
  - by eapply do_split_Permutation.
  - by eapply do_split_len.
Qed.

(** X6. For a dataset with its class index, [_split_length], the number
    of classes, is at most the number of records, and it is 0 exactly when
    there is no record. *)
Theorem classes_bounded h self :
  data_to_class h (data self) (label_key self) = Ok (class_data self) ->
  split_length self ≤ len self ∧
  (split_length self = 0 ↔ len self = 0).
Proof.
  intros Hcd. unfold split_length, len.
  assert (∀ d cd0 cd, data_to_class_from h (label_key self) d cd0 = Ok cd ->
            (size cd ≤ size cd0 + length d)%nat) as Hsize.
  { induction d as [|[idx elem] rest IH]; intros cd0 cd; simpl.
    - intros [= <-]. lia.
    - destruct (field h elem (label_key self)) as [c|e]; simpl; [|done].
      intros Hrest%IH. rewrite map_size_insert in Hrest.
      destruct (cd0 !! c); simpl in Hrest; lia. }
  pose proof (Hsize _ _ _ Hcd) as Hle. rewrite map_size_empty in Hle.
  split; [lia|]. split.
  - intros Hz. destruct (data self) as [|[idx elem] rest] eqn:Hd; [done|].
    exfalso.
    destruct (data_to_class_from_labelled _ _ _ _ _ Hcd idx elem) as [c Hc];
      [apply elem_of_cons; by left|].
    assert (c ∈ dom (class_data self)) as Hin.
    { apply (dom_data_to_class h _ _ _ c Hcd). exists elem. split; [|done].
      apply list_elem_of_fmap. exists (idx, elem). split; [done|].
      apply elem_of_cons. by left. }
    assert (size (class_data self) = 0%nat) as Hs by lia.
    apply map_size_empty_inv in Hs. rewrite Hs, dom_empty_L in Hin.
    by apply not_elem_of_empty in Hin.
  - intros Hz. destruct (data self); [|simpl in Hz; lia].
    unfold data_to_class in Hcd. simpl in Hcd. injection Hcd as <-.
    by rewrite map_size_empty.
Qed.

End Dataset.

End SplitKeeps.

(** ** Facts about well-formedness across a split *)

Module WfFacts.
Import FE Siamese Props PyFacts SplitFacts ClassFacts.
Import MoveFacts SliceFacts KeepFacts.

Section Dataset.
Context {V : Type} `{Countable V}.
Context (V_le : relation V) `{!RelDecision V_le}.
Implicit Types (h : gmap loc (gmap string V)) (self s : dataset (V:=V)).

(** The pops leave the data key as it is. *)
Lemma pop_all_left (L : list Z) : ∀ new_idx s x s',
  pop_all new_idx L s = (x, s') -> data_key_left s' = data_key_left s.
Proof.
  induction L as [|old rest IH]; intros new_idx s x s'; simpl.
  - by intros [= _ <-].
  - unfold mbind, M_bind, pop.
    destruct (items_pop (data s) old) as [[v d0]|]; [|by intros [= _ <-]].
    destruct (pop_all (new_idx + 1) rest (set_data d0 s)) as [[d1|e] s1]
      eqn:Hrest; intros [= _ <-]; by apply IH in Hrest.
Qed.

(** A dataset split off has the data key of the source, which keeps
    it. *)
Lemma split_off_left h g s r s' :
  split_off V_le h g s = (Ok r, s') ->
  data_key_left r = data_key_left s ∧ data_key_left s' = data_key_left s.
Proof.
  unfold split_off, mbind at 1 2, M_bind, get, lift.
  destruct (_ <$> gen_for_each _ g) as [idxs|e]; [|done].
  unfold mbind at 1, M_bind.
  destruct (pop_all 0 idxs s) as [[d|e] s1] eqn:Hpop; [|done].
  apply pop_all_left in Hpop.
  unfold mbind, M_bind, lift.
  destruct (data_to_class h d (label_key s)); [|done].
  by intros [= <- <-].
Qed.

Lemma split_offs_left h gens : ∀ s rs s',
  for_each_M (split_off V_le h) gens s = (Ok rs, s') ->
  Forall (fun r => data_key_left r = data_key_left s) rs ∧
  data_key_left s' = data_key_left s.
Proof.
  induction gens as [|g gens IH]; intros s rs s'; simpl.
  - by intros [= <- <-].
  - unfold mbind, M_bind.
    destruct (split_off V_le h g s) as [[r|e] s0] eqn:Hg; [|done].
    apply split_off_left in Hg as [Hr Hs0].
    destruct (for_each_M _ gens s0) as [[rs'|e] s1] eqn:Hrest; [|done].
    apply IH in Hrest as [Hrs Hs1]. intros [= <- <-]. split; [|congruence].
    constructor; [done|]. eapply Forall_impl; [exact Hrs|].
    simpl. intros; congruence.
Qed.

Lemma do_split_left h gens s results s' :
  do_split V_le h gens s = (Ok results, s') ->
  Forall (fun r => data_key_left r = data_key_left s) results ∧
  data_key_left s' = data_key_left s.
Proof.
  unfold do_split, mbind at 1, M_bind.
  destruct (for_each_M _ gens s) as [[rs|e] s1] eqn:Hfor; [|done].
  apply split_offs_left in Hfor as [Hrs Hs1].
  unfold mbind, M_bind, get, put, lift. simpl.
  destruct (data_to_class _ _ _); [|done]. by intros [= <- <-].
Qed.

(** A dataset rebuilt from records of a well-formed dataset, with its data
    key, is well formed. *)
Lemma rebuilt_wf h self r :
  wf h self -> rebuilt h r ->
  data_key_left r = data_key_left self ->
  (∀ elem, elem ∈ (data r).*2 -> elem ∈ (data self).*2) ->
  wf h r.
Proof.
  intros Hwf [Hc Hcd] Hleft Hsub.
  assert (∀ idx elem, (idx, elem) ∈ data r ->
                      ∃ idx', (idx', elem) ∈ data self) as Hin.
  { intros idx elem Hr.
    assert (elem ∈ (data self).*2) as ([idx' e] & -> & ?)%list_elem_of_fmap.
    { apply Hsub, list_elem_of_fmap. by exists (idx, elem). }
    by exists idx'. }
  split.
  - by apply contiguous_NoDup.
  - done.
  - intros idx elem [idx' Hr]%Hin. by eapply wf_alloc.
  - intros idx elem [idx' Hr]%Hin. rewrite Hleft. by eapply wf_left.
Qed.

End Dataset.

End WfFacts.

(** ** [SiameseDirDataset.split]: what it returns can be used *)

Module SplitComposes.
Import FE Siamese Props PyFacts SplitFacts ClassFacts.
Import MoveFacts SliceFacts KeepFacts WfFacts.

Section Dataset.
Context {V : Type} `{Countable V}.
Context (V_le : relation V) `{!RelDecision V_le}.
Implicit Types (h : gmap loc (gmap string V)) (self s : dataset (V:=V)).

(** X13. A split of a well-formed [SiameseDirDataset] that returns leaves
    well-formed datasets: the source and every produced dataset have
    unique keys, the class index of their records, and records that are in
    the store and hold the data key. What is proved of item access and of
    the one-shot trial on a well-formed dataset holds of them. *)
Theorem split_preserves_wf h (rnd : tape) (fractions : list descriptor)
    (method : string) self res self' :
  wf h self ->
  split (H := siamese_dataset V_le h) rnd fractions method self
  = (Ok res, self') ->
  wf h self' ∧ Forall (wf h) (produced res).
Proof.
  intros Hwf (splits & results & Hd & Hsub)%split_ok.
  pose proof Hd as [Hs Hr]%do_split_rebuilt.
  pose proof Hd as [Hleft Hleft']%do_split_left.
  pose proof Hd as Hperm%do_split_Permutation.
  split.
  - apply (rebuilt_wf h self self' Hwf Hs Hleft').
    intros elem Hin. rewrite Hperm. apply elem_of_app. by right.
  - apply Forall_forall. intros r Hin%Hsub.
    apply (rebuilt_wf h self r Hwf).
    + by eapply Forall_forall in Hr.
    + by eapply Forall_forall in Hleft.
    + intros elem He. rewrite Hperm. apply elem_of_app. left.
      apply elem_of_concat. exists (data r).*2. split; [done|].
      apply list_elem_of_fmap. by exists r.
Qed.

End Dataset.

End SplitComposes.

(** ** Facts about the ends of the sorted labels *)

Module EndFacts.
Import FE Siamese Props PyFacts SplitFacts ClassFacts.
Import MoveFacts PoolFacts SliceFacts.

Lemma Forall2_for_each {A B} (f : A -> result B) l ys :
  Forall2 (fun x y => f x = Ok y) l ys -> for_each f l = Ok ys.
Proof.
  induction 1 as [|x y l ys Hx _ IH]; simpl; [done|]. by rewrite Hx, IH.
Qed.

(** Reading the first positions of a list gives its first elements. *)
Lemma getitems_prefix {A} (l : list A) (k : Z) :
  0 ≤ k ≤ Z.of_nat (length l) ->
  for_each (list_getitem l) (seqZ 0 k) = Ok (take (Z.to_nat k) l).
Proof.
  intros Hk. apply Forall2_for_each, Forall2_same_length_lookup_2.
  - rewrite length_seqZ, length_take. lia.
  - intros i x y Hx Hy. apply lookup_seqZ in Hx as [-> Hi].
    apply lookup_take_Some in Hy as [Hy _].
    apply list_getitem_ok; [lia|]. by rewrite Z.add_0_l, Nat2Z.id.
Qed.

(** Reading the last positions of a list, from the last one down, gives
    its last elements, the last one first. *)
Lemma getitems_suffix {A} (l : list A) (k : Z) :
  0 ≤ k ≤ Z.of_nat (length l) ->
  for_each (list_getitem l)
    (range_down (Z.of_nat (length l) - 1) (Z.of_nat (length l) - k - 1))
  = Ok (reverse (drop (length l - Z.to_nat k) l)).
Proof.
  intros Hk. apply Forall2_for_each, Forall2_same_length_lookup_2.
  - unfold range_down.
    rewrite length_fmap, length_seqZ, length_reverse, length_drop. lia.
  - intros i x y Hx Hy. unfold range_down in Hx.
    rewrite list_lookup_fmap in Hx.
    destruct (seqZ _ _ !! i) as [j|] eqn:Hj; [|done].
    apply lookup_seqZ in Hj as [-> Hi]. injection Hx as <-.
    assert (i < length (drop (length l - Z.to_nat k) l))%nat as Hlt
      by (rewrite length_drop; lia).
    rewrite reverse_lookup in Hy by done.
    rewrite lookup_drop, length_drop in Hy.
    apply list_getitem_ok; [lia|]. rewrite <- Hy. f_equal. lia.
Qed.

Section Ends.
Context {V : Type} `{Countable V}.
Context (V_le : relation V) `{!RelDecision V_le}.
Implicit Types (h : gmap loc (gmap string V)) (self s : dataset (V:=V)).

Lemma dom_sorted_keys self :
  dom (class_data self) = list_to_set (sorted_keys V_le self).
Proof.
  apply set_eq. intros c.
  by rewrite elem_of_list_to_set, elem_of_sorted_keys, elem_of_dom.
Qed.

(** Without the first labels, the labels are the last ones. *)
Lemma dom_without_prefix self (n : nat) :
  dom (class_data self) ∖ list_to_set (take n (sorted_keys V_le self))
  = list_to_set (drop n (sorted_keys V_le self)).
Proof.
  rewrite dom_sorted_keys.
  pose proof (NoDup_sorted_keys V_le self) as Hnd.
  rewrite <- (take_drop n (sorted_keys V_le self)) in Hnd at 1.
  apply NoDup_app in Hnd as (_ & Hdisj & _).
  apply set_eq. intros c.
  rewrite elem_of_difference, !elem_of_list_to_set.
  rewrite <- (take_drop n (sorted_keys V_le self)) at 1.
  rewrite elem_of_app. split.
  - intros [[?|?] ?]; done.
  - intros Hc. split; [by right|]. intros Ht. by apply (Hdisj c).
Qed.

(** Without the last labels, the labels are the first ones. *)
Lemma dom_without_suffix self (n : nat) :
  dom (class_data self)
    ∖ list_to_set (reverse (drop n (sorted_keys V_le self)))
  = list_to_set (take n (sorted_keys V_le self)).
Proof.
  rewrite dom_sorted_keys.
  pose proof (NoDup_sorted_keys V_le self) as Hnd.
  rewrite <- (take_drop n (sorted_keys V_le self)) in Hnd at 1.
  apply NoDup_app in Hnd as (_ & Hdisj & _).
  apply set_eq. intros c.
  rewrite elem_of_difference, !elem_of_list_to_set, elem_of_reverse.
  rewrite <- (take_drop n (sorted_keys V_le self)) at 1.
  rewrite elem_of_app. split.
  - intros [[?|?] ?]; done.
  - intros Hc. split; [by left|]. intros Ht. by apply (Hdisj c).
Qed.

End Ends.

End EndFacts.

(** ** [SiameseDirDataset.split]: [from_front] and [from_back] *)

Module SplitEnds.
Import FE Siamese Props PyFacts SplitFacts ClassFacts.
Import MoveDefs MoveFacts PoolFacts SliceFacts EndFacts.

Section Dataset.
Context {V : Type} `{Countable V}.
Context (V_le : relation V) `{!RelDecision V_le}.
Implicit Types (h : gmap loc (gmap string V)) (self s : dataset (V:=V)).

(** X14. [split] with the strategy [from_front] on a dataset with unique
    record keys and its class index, for a call that passes validation
    with counts that are not negative: the call returns; together the
    produced datasets have the first [sum] classes of the sorted class
    labels, each its consecutive share of as many classes as its count,
    and the source keeps the others; every class moved is below every
    class kept when the order of the labels is transitive and total. *)
Theorem split_from_front h (rnd : tape) (fractions : list descriptor)
    self int_sum n_samples :
  NoDup (data self).*1 ->
  data_to_class h (data self) (label_key self) = Ok (class_data self) ->
  validate (split_length self) fractions "from_front"
  = Ok (int_sum, n_samples) ->
  Forall (fun n => 0 ≤ n) n_samples ->
  ∃ css res self',
    split (H := siamese_dataset V_le h) rnd fractions "from_front" self
    = (Ok res, self') ∧
    concat css = take (Z.to_nat int_sum) (sorted_keys V_le self) ∧
    Forall2 (fun cs n => Z.of_nat (length cs) = n) css n_samples ∧
    Forall2 (fun cs r => dom (class_data r) = list_to_set cs)
            css (produced res) ∧
    dom (class_data self')
    = list_to_set (drop (Z.to_nat int_sum) (sorted_keys V_le self)) ∧
    (Transitive V_le -> Total V_le ->
     ∀ c c', c ∈ concat css -> c' ∈ dom (class_data self') -> V_le c c').
Proof.
  intros Hnd Hcd Hv Hnn.
  destruct (validate_length _ _ _ _ _ Hv) as (Hlen & Hsum & Hlt & Hm).
  pose proof (sum_counts_nonneg _ Hnn) as H0.
  destruct (split_valid V_le h rnd fractions "from_front" self int_sum
              n_samples Hnd Hcd Hv Hnn)
    as (indices & parts & css & res & self' & Hsel & Hparts & Hcat & Hcss
        & Hndc & Hcount & Hres & Hall & Hothers & Hdom).
  assert (indices = seqZ 0 int_sum) as ->.
  { unfold select_indices, range in Hsel. simpl in Hsel.
    rewrite Z.sub_0_r in Hsel. by injection Hsel. }
  assert (concat css = take (Z.to_nat int_sum) (sorted_keys V_le self))
    as Htake.
  { apply for_each_concat in Hcss. rewrite Hcat in Hcss.
    rewrite getitems_prefix in Hcss; [by injection Hcss|].
    rewrite length_sorted_keys. lia. }
  assert (dom (class_data self')
          = list_to_set (drop (Z.to_nat int_sum) (sorted_keys V_le self)))
    as Hdrop by (by rewrite Hdom, Htake, dom_without_prefix).
  exists css, res, self'. split_and!; [done|done|done| |done|].
  - eapply Forall2_impl; [exact Hall|]. by intros ?? [_ ?].
  - intros Htrans Htotal c c' Hc Hc'.
    rewrite Htake in Hc. rewrite Hdrop in Hc'.
    apply elem_of_list_to_set in Hc'.
    pose proof (StronglySorted_merge_sort V_le
                  (elements (dom (class_data self)))) as Hsorted.
    fold (sorted_keys V_le self) in Hsorted.
    rewrite <- (take_drop (Z.to_nat int_sum) (sorted_keys V_le self))
      in Hsorted.
    by eapply StronglySorted_app_1_elem_of.
Qed.

(** X15. [split] with the strategy [from_back] on a dataset with unique
    record keys and its class index, for a call that passes validation
    with counts that are not negative: the call returns; together the
    produced datasets have the last [sum] classes of the sorted class
    labels, the last class first, each its consecutive share of as many
    classes as its count, and the source keeps the others; every class
    kept is below every class moved when the order of the labels is
    transitive and total. *)
Theorem split_from_back h (rnd : tape) (fractions : list descriptor)
    self int_sum n_samples :
  NoDup (data self).*1 ->
  data_to_class h (data self) (label_key self) = Ok (class_data self) ->
  validate (split_length self) fractions "from_back"
  = Ok (int_sum, n_samples) ->
  Forall (fun n => 0 ≤ n) n_samples ->
  ∃ css res self',
    split (H := siamese_dataset V_le h) rnd fractions "from_back" self
    = (Ok res, self') ∧
    concat css
    = reverse (drop (length (sorted_keys V_le self) - Z.to_nat int_sum)
                    (sorted_keys V_le self)) ∧
    Forall2 (fun cs n => Z.of_nat (length cs) = n) css n_samples ∧
    Forall2 (fun cs r => dom (class_data r) = list_to_set cs)
            css (produced res) ∧
    dom (class_data self')
    = list_to_set (take (length (sorted_keys V_le self) - Z.to_nat int_sum)
                        (sorted_keys V_le self)) ∧
    (Transitive V_le -> Total V_le ->
     ∀ c c', c ∈ dom (class_data self') -> c' ∈ concat css -> V_le c c').
Proof.
  intros Hnd Hcd Hv Hnn.
  destruct (validate_length _ _ _ _ _ Hv) as (Hlen & Hsum & Hlt & Hm).
  pose proof (sum_counts_nonneg _ Hnn) as H0.
  destruct (split_valid V_le h rnd fractions "from_back" self int_sum
              n_samples Hnd Hcd Hv Hnn)
    as (indices & parts & css & res & self' & Hsel & Hparts & Hcat & Hcss
        & Hndc & Hcount & Hres & Hall & Hothers & Hdom).
  set (keys := sorted_keys V_le self) in *.
  assert (Z.of_nat (length keys) = split_length self) as Hkeys
    by apply length_sorted_keys.
  assert (indices = range_down (Z.of_nat (length keys) - 1)
                               (Z.of_nat (length keys) - int_sum - 1)) as ->.
  { unfold select_indices in Hsel. simpl in Hsel. rewrite Hkeys.
    by injection Hsel. }
  assert (concat css
          = reverse (drop (length keys - Z.to_nat int_sum) keys)) as Hlast.
  { apply for_each_concat in Hcss. rewrite Hcat in Hcss.
    rewrite getitems_suffix in Hcss; [by injection Hcss|]. lia. }
  assert (dom (class_data self')
          = list_to_set (take (length keys - Z.to_nat int_sum) keys))
    as Hfirst by (by rewrite Hdom, Hlast; apply dom_without_suffix).
  exists css, res, self'. split_and!; [done|done|done| |done|].
  - eapply Forall2_impl; [exact Hall|]. by intros ?? [_ ?].
  - intros Htrans Htotal c c' Hc Hc'.
    rewrite Hlast in Hc'. rewrite Hfirst in Hc.
    apply elem_of_list_to_set in Hc. rewrite elem_of_reverse in Hc'.
    pose proof (StronglySorted_merge_sort V_le
                  (elements (dom (class_data self)))) as Hsorted.
    fold (sorted_keys V_le self) in Hsorted. fold keys in Hsorted.
    rewrite <- (take_drop (length keys - Z.to_nat int_sum) keys)
      in Hsorted.
    by eapply StronglySorted_app_1_elem_of.
Qed.

End Dataset.

End SplitEnds.

(** ** Facts about the partner of an item *)

Module AccessFacts.
Import FE Siamese Props PyFacts ClassFacts ItemFacts.

Lemma items_get_None {A} (d : list (Z * A)) k :
  k ∉ d.*1 -> items_get d k = None.
Proof.
  induction d as [|[k0 v0] d IH]; simpl; [done|].
  intros [Hne Hk]%not_elem_of_cons.
  rewrite bool_decide_eq_false_2 by done. by apply IH.
Qed.

Section Dataset.
Context {V : Type} `{Countable V}.
Context (of_int : Z -> V).
Implicit Types (h : gmap loc (gmap string V)) (self : dataset (V:=V)).

(** Item access once the partner [other] is sampled: the copy of the
    record of [index] with the right key and the label key set. *)
Lemma getitem_sampled h self (u : float) (rnd : tape) (index : Z)
    elem c other o x :
  data_getitem self index = Ok elem ->
  field h elem (label_key self) = Ok c ->
  (if (u <? percent_matching_data self)%float
   then ∃ items, class_data self !! c = Some items ∧
                 choice (elements (items ∖ {[index]})) rnd = Ok other
   else ∃ other_class others,
          choice (elements (dom (class_data self) ∖ {[c]})) rnd
          = Ok other_class ∧
          class_data self !! other_class = Some others ∧
          choice (elements others) (advance 1 rnd) = Ok other) ->
  data_getitem self other = Ok o -> o ∈ dom h ->
  field h o (data_key_left self) = Ok x ->
  getitem of_int self u rnd index h =
  (Ok (fresh (dom h)),
   <[fresh (dom h) :=
       <[label_key self :=
           of_int (if (u <? percent_matching_data self)%float
                   then 1 else 0)]>
         (<[data_key_right self := x]> (h !!! elem))]> h).
Proof.
  intros Hg Hf Hbranch Ho Hoh Hx.
  set (l := fresh (dom h)). set (h1 := <[l := h !!! elem]> h).
  assert (field h1 o (data_key_left self) = Ok x) as Hx1
    by (unfold h1, l; by rewrite field_stored).
  assert (field h1 l (label_key self) = Ok c) as Hf1
    by (unfold h1, l; by rewrite field_deepcopy).
  unfold getitem, mbind at 1 2, M_bind, lift, deepcopy. rewrite Hg.
  fold l. fold h1.
  destruct (u <? _)%float.
  - destruct Hbranch as (items & Hc & Hch).
    unfold mbind, M_bind, lift, get, setitem, mret, M_ret.
    rewrite Hf1. unfold dict_getitem at 1. rewrite Hc, Hch, Ho, Hx1.
    f_equal. unfold h1.
    rewrite !lookup_total_insert_eq, !insert_insert_eq. done.
  - destruct Hbranch as (oc & others & Hch & Hoc & Hch').
    unfold mbind, M_bind, lift, get, setitem, mret, M_ret.
    rewrite Hf1, Hch. unfold dict_getitem at 1.
    rewrite Hoc, Hch', Ho, Hx1.
    f_equal. unfold h1.
    rewrite !lookup_total_insert_eq, !insert_insert_eq. done.
Qed.

End Dataset.

End AccessFacts.

(** ** [__getitem__]: bounds and reach *)

Module ItemEdges.
Import FE Siamese Props PyFacts ClassFacts ItemFacts.
Import MoveFacts AccessFacts.

Section Dataset.
Context {V : Type} `{Countable V}.
Context (of_int : Z -> V).
Implicit Types (h : gmap loc (gmap string V)) (self : dataset (V:=V)).

(** X7. Item access at an index outside [0..len-1] of a dataset with
    contiguous keys raises [KeyError]: [self.data] is a dict, and a
    negative index does not count from the end. Nothing is copied: the
    store is as it was. *)
Theorem getitem_out_of_range h self (u : float) (rnd : tape) (index : Z) :
  contiguous self -> ¬ (0 ≤ index < len self) ->
  getitem of_int self u rnd index h = (Raise KeyError, h).
Proof.
  intros Hc Hi. unfold getitem, mbind, M_bind, lift, data_getitem.
  rewrite items_get_None; [done|].
  rewrite Hc. intros Hin%elem_of_seqZ. unfold len in Hi. lia.
Qed.

(** X8. On a dataset whose records are all of one class, item access at
    a valid index with a draw that selects the non-matching branch raises
    [ValueError], whatever the later draws: there is no other class to
    sample. The stored records are as they were. *)
Theorem getitem_single_class_raises h self (u : float) (rnd : tape)
    (index : Z) elem :
  wf h self ->
  data_getitem self index = Ok elem ->
  size (class_data self) = 1%nat ->
  (u <? percent_matching_data self)%float = false ->
  ∃ h', getitem of_int self u rnd index h = (Raise ValueError, h') ∧
        ∀ l, l ∈ dom h -> h' !! l = h !! l.
Proof.
  intros Hwf Hg Hsz Hu.
  assert ((index, elem) ∈ data self) as Hin.
  { unfold data_getitem in Hg.
    destruct (items_get _ _) as [e|] eqn:Hi; [|done]. injection Hg as ->.
    by apply items_get_elem_of. }
  destruct (data_to_class_from_labelled _ _ _ _ _ (wf_class_data _ _ Hwf)
              _ _ Hin) as [c Hc].
  assert (c ∈ dom (class_data self)) as Hdom.
  { apply (dom_data_to_class h _ _ _ c (wf_class_data _ _ Hwf)).
    exists elem. split; [|done]. apply list_elem_of_fmap. by exists (index, elem). }
  assert (dom (class_data self) ∖ {[c]} = ∅) as Hempty.
  { rewrite <- size_dom in Hsz. apply size_1_elem_of in Hsz as [c' Hc'].
    apply leibniz_equiv in Hc'. rewrite Hc' in *.
    apply elem_of_singleton in Hdom as ->. apply difference_diag_L. }
  exists (<[fresh (dom h) := h !!! elem]> h).
  split; [|intros; by apply stored_unchanged].
  unfold getitem, mbind, M_bind, lift, deepcopy, get.
  rewrite Hg, Hu, field_deepcopy, Hc, Hempty. by rewrite elements_empty.
Qed.

(** X9. Every candidate can be the partner. For a valid index with label
    [c] and an instance [other] of a class [other_class]: when the draw
    selects the matching branch, [other_class] is [c] and [other] is not
    the index itself, or when it selects the non-matching branch and
    [other_class] is not [c], there are draws for which item access
    returns the copy of the index's record with the right key set to the
    data value of [other] and the label key set to 1 (matching) or 0. *)
Theorem getitem_reaches_partner h self (u : float) (index : Z)
    elem c other other_class others :
  wf h self ->
  data_getitem self index = Ok elem ->
  field h elem (label_key self) = Ok c ->
  class_data self !! other_class = Some others ->
  other ∈ others ->
  (if (u <? percent_matching_data self)%float
   then other_class = c ∧ other ≠ index
   else other_class ≠ c) ->
  ∃ rnd base h' x,
    getitem of_int self u rnd index h = (Ok base, h') ∧
    left_of h self other = Ok x ∧
    (h' !!! base) =
      <[label_key self :=
          of_int (if (u <? percent_matching_data self)%float then 1 else 0)]>
        (<[data_key_right self := x]> (h !!! elem)).
Proof.
  intros Hwf Hg Hf Hoc Hin Hbranch.
  destruct (wf_member h self other_class other Hwf)
    as (o & Ho & Hoh & _ & x & Hx); [by exists others|].
  assert (∃ rnd,
            if (u <? percent_matching_data self)%float
            then ∃ items, class_data self !! c = Some items ∧
                          choice (elements (items ∖ {[index]})) rnd = Ok other
            else ∃ other_class others,
                   choice (elements (dom (class_data self) ∖ {[c]})) rnd
                   = Ok other_class ∧
                   class_data self !! other_class = Some others ∧
                   choice (elements others) (advance 1 rnd) = Ok other)
    as [rnd Hrnd].
  { destruct (u <? _)%float.
    - destruct Hbranch as [-> Hne].
      destruct (choice_complete (elements (others ∖ {[index]})) other)
        as [rnd Hrnd].
      { apply elem_of_elements, elem_of_difference. split; [done|].
        by intros ?%elem_of_singleton. }
      exists rnd, others. by split.
    - assert (other_class ∈ elements (dom (class_data self) ∖ {[c]}))
        as [j1 Hj1]%list_elem_of_lookup_1.
      { apply elem_of_elements, elem_of_difference. split.
        - apply elem_of_dom. by exists others.
        - by intros ?%elem_of_singleton. }
      assert (other ∈ elements others) as [j2 Hj2]%list_elem_of_lookup_1
        by (by apply elem_of_elements).
      exists (fun i => match i with O => j1 | _ => j2 end),
        other_class, others.
      split_and!; [|done|]; unfold choice, advance; simpl.
      + rewrite Nat.mod_small by (by eapply lookup_lt_Some). by rewrite Hj1.
      + rewrite Nat.mod_small by (by eapply lookup_lt_Some). by rewrite Hj2. }
  exists rnd. eexists _, _, x. split_and!.
  - by apply (getitem_sampled of_int h self u rnd index elem c other o x).
  - unfold left_of. by rewrite Ho.
  - by rewrite lookup_total_insert_eq.
Qed.

End Dataset.

End ItemEdges.

(** ** [split]: negative counts *)

Module NegativeCounts.
Import FE.

Section Split.
Context `{FEDataset D}.

(** X10. The checks of [split] let a negative count sum through. With
    the strategy [random] the call then raises the [ValueError] of
    [random.sample], before [_do_split] and with the dataset as it was;
    with the other strategies the index pool is empty. *)
Theorem split_negative_sum (rnd : tape) (fractions : list descriptor)
    (method : string) (self : D) (int_sum : Z) (n_samples : list Z) :
  validate (len self) fractions method = Ok (int_sum, n_samples) ->
  int_sum < 0 ->
  if bool_decide (method = "random")
  then split rnd fractions method self = (Raise ValueError, self)
  else select_indices method (len self) int_sum rnd = Ok [].
Proof.
  intros Hv Hneg. case_bool_decide as Hm.
  - subst method. unfold split, mbind, M_bind, get, lift. rewrite Hv. simpl.
    unfold select_indices, random_sample. simpl.
    destruct (int_sum <? 0) eqn:E; [done|lia].
  - unfold select_indices, range, range_down.
    repeat case_bool_decide; try done.
    + by rewrite seqZ_nil by lia.
    + by rewrite seqZ_nil by lia.
Qed.

End Split.

End NegativeCounts.

(** ** Facts about the retry loop *)

Module DownloadFacts.
Import Download.

Lemma randint_range a b rnd : a ≤ b -> a ≤ randint a b rnd ≤ b.
Proof.
  intros Hab. unfold randint.
  pose proof (Z.mod_pos_bound (Z.of_nat (rnd O)) (b - a + 1)). lia.
Qed.

(** The loop over rounds that are all retried. *)
Lemma rounds_retried attempt n : ∀ k rnd,
  (∀ j, (k ≤ j < k + n)%nat -> retried (attempt j)) ->
  ∃ trace, rounds attempt k n rnd = (Exhausted, trace) ∧
           downloads trace = n ∧ length (sleeps trace) = n ∧
           Forall (fun s => 5 ≤ s ≤ 10) (sleeps trace).
Proof.
  induction n as [|n IH]; intros k rnd Hr; simpl.
  - exists []. by split_and!.
  - destruct (IH (S k) (advance 1 rnd)) as (trace & -> & Hd & Hl & Hs);
      [intros j Hj; apply Hr; lia|].
    exists (Started :: Slept (randint 5 10 rnd) :: trace).
    assert (retried (attempt k)) as [-> | ->] by (apply Hr; lia);
      (split_and!;
       [done
       |unfold downloads in *; simpl; by f_equal
       |simpl; by f_equal
       |simpl; constructor; [by apply randint_range|done]]).
Qed.

(** The loop up to the first round that is not retried. *)
Lemma rounds_stop attempt m : ∀ k n rnd,
  (m < n)%nat ->
  (∀ j, (k ≤ j < k + m)%nat -> retried (attempt j)) ->
  ¬ retried (attempt (k + m)%nat) ->
  ∃ trace, rounds attempt k n rnd
           = (match attempt (k + m)%nat with
              | Valid => Found
              | _ => Escaped
              end, trace) ∧
           downloads trace = S m ∧ length (sleeps trace) = m ∧
           Forall (fun s => 5 ≤ s ≤ 10) (sleeps trace).
Proof.
  induction m as [|m IH]; intros k n rnd Hm Hr Hv.
  - destruct n as [|n]; [lia|]. simpl. rewrite Nat.add_0_r in *.
    exists [Started]. unfold retried in Hv.
    destruct (attempt k); split_and!; try done; exfalso; auto.
  - destruct n as [|n]; [lia|]. simpl.
    replace (k + S m)%nat with (S k + m)%nat in * by lia.
    destruct (IH (S k) n (advance 1 rnd)) as (trace & -> & Hd & Hl & Hs);
      [lia|intros j Hj; apply Hr; lia|done|].
    exists (Started :: Slept (randint 5 10 rnd) :: trace).
    assert (retried (attempt k)) as [-> | ->] by (apply Hr; lia);
      (split_and!;
       [done
       |unfold downloads in *; simpl; by f_equal
       |simpl; by f_equal
       |simpl; constructor; [by apply randint_range|done]]).
Qed.

End DownloadFacts.

(** ** google_download_util.py: the token and the retries *)

Module DownloadProps.
Import Download DownloadFacts.

(** X11. [_get_confirm_token] returns the value of the first cookie
    whose name starts with [download_warning], whatever cookies follow it,
    and [None] exactly when no cookie has such a name. *)
Theorem get_confirm_token_first cookies :
  match get_confirm_token cookies with
  | Some value =>
      ∃ before key after,
        cookies = before ++ (key, value) :: after ∧
        is_warning key = true ∧
        Forall (fun c => is_warning c.1 = false) before
  | None => Forall (fun c => is_warning c.1 = false) cookies
  end.
Proof.
  induction cookies as [|[key value] rest IH]; simpl; [constructor|].
  destruct (is_warning key) eqn:Hkey.
  - by exists [], key, rest.
  - destruct (get_confirm_token rest) as [v|].
    + destruct IH as (before & key' & after & -> & Hk & Hb).
      exists ((key, value) :: before), key', after.
      split_and!; [done|done|by constructor].
    + by constructor.
Qed.

(** X12. [download_file_from_google_drive]. With [max_retries] at most 0
    it raises [ValueError] without a download. When the first round that
    is not retried is round [m], below [max_retries], the call ends there,
    after [m + 1] downloads and [m] sleeps: it returns when that round was
    valid, and lets the exception through otherwise. When every round
    below [max_retries] is retried, it raises [ValueError] after
    [max_retries] downloads and as many sleeps, one after the last
    download too. Every sleep is of 5 to 10 seconds. *)
Theorem download_retries attempt (max_retries : Z) (rnd : tape) :
  (max_retries ≤ 0 ->
   download_file_from_google_drive attempt max_retries rnd
   = (RaisedValueError, [])) ∧
  (∀ m : nat,
     Z.of_nat m < max_retries ->
     (∀ j, (j < m)%nat -> retried (attempt j)) -> ¬ retried (attempt m) ->
     ∃ trace,
       download_file_from_google_drive attempt max_retries rnd
       = (match attempt m with Valid => Returned | _ => Propagated end,
          trace) ∧
       downloads trace = S m ∧ length (sleeps trace) = m ∧
       Forall (fun s => 5 ≤ s ≤ 10) (sleeps trace)) ∧
  ((∀ j : nat, Z.of_nat j < max_retries -> retried (attempt j)) ->
   ∃ trace,
     download_file_from_google_drive attempt max_retries rnd
     = (RaisedValueError, trace) ∧
     downloads trace = Z.to_nat max_retries ∧
     length (sleeps trace) = Z.to_nat max_retries ∧
     Forall (fun s => 5 ≤ s ≤ 10) (sleeps trace)).
Proof.
  unfold download_file_from_google_drive. split_and!.
  - intros Hn. by replace (Z.to_nat max_retries) with O by lia.
  - intros m Hm Hr Hv.
    destruct (rounds_stop attempt m 0 (Z.to_nat max_retries) rnd)
      as (trace & -> & Hrest); [lia|intros j Hj; apply Hr; lia|done|].
    simpl. exists trace. split; [|done]. by destruct (attempt m).
  - intros Hr.
    destruct (rounds_retried attempt (Z.to_nat max_retries) 0 rnd)
      as (trace & -> & Hrest); [intros j Hj; apply Hr; lia|].
    by exists trace.
Qed.

End DownloadProps.

(** ** More concrete cases *)

Module MoreCases.
Import FE Siamese Props Examples MoveDefs Download.

Lemma keys_two_classes : NoDup (data (load two_classes)).*1.
Proof. apply (bool_decide_eq_true_1 _). vm_compute. reflexivity. Qed.

Lemma keys_ten_classes : NoDup (data (load ten_classes)).*1.
Proof. apply (bool_decide_eq_true_1 _). vm_compute. reflexivity. Qed.

Lemma wf_load_one_class : wf (scan_heap one_class) (load one_class).
Proof. apply ItemFacts.wfb_wf. vm_compute. reflexivity. Qed.

(** [split(0.5, method="from_front")] on the ten records in two classes
    of five gives a dataset of one class, with five records under the keys
    0 to 4, and the source keeps the other class, its five records under
    the keys 0 to 4. *)
Lemma split_half_of_two_classes :
  (data (load two_classes)).*2
  = [1; 2; 3; 4; 5; 6; 7; 8; 9; 10]%positive ∧
  split_length (load two_classes) = 2 ∧
  ceil_of (split_length (load two_classes)) 0.5 = Ok 1 ∧
  (fun r => ((data r).*1, list_to_set (C := gset loc) (data r).*2))
    <$> produced (returned (split_of two_classes zeros [DFloat 0.5]
                              "from_front"))
  = [([0; 1; 2; 3; 4],
      list_to_set (C := gset loc) [1; 2; 3; 4; 5]%positive)] ∧
  data (split_of two_classes zeros [DFloat 0.5] "from_front").2
  = [(0, 6%positive); (1, 7%positive); (2, 8%positive); (3, 9%positive);
     (4, 10%positive)] ∧
  (split_of two_classes zeros [DInt 1; DInt 2] "from_front")
  = (Raise AssertionError, load two_classes).
Proof. vm_compute. repeat split; reflexivity. Qed.



(** [split(2, 3, method="from_front")] on the eleven records in ten
    classes. *)
Lemma split_moves_classes_witness :
  ∃ parts css res self',
    for_each consume (slices [0; 1; 2; 3; 4] 0 [2; 3]) = Ok parts ∧
    concat parts = [0; 1; 2; 3; 4] ∧
    for_each (for_each (list_getitem
                          (sorted_keys value_le (load ten_classes)))) parts
    = Ok css ∧
    split_of ten_classes zeros [DInt 2; DInt 3] "from_front"
    = (Ok res, self') ∧
    Forall2 (fun cs r =>
               holds_classes (scan_heap ten_classes) (load ten_classes) cs r ∧
               dom (class_data r) = list_to_set cs)
            css (produced res) ∧
    holds_others (scan_heap ten_classes) (load ten_classes) (concat css)
                 self' ∧
    dom (class_data self')
    = dom (class_data (load ten_classes)) ∖ list_to_set (concat css).
Proof.
  apply (SplitMoves.split_moves_classes value_le (scan_heap ten_classes)
           zeros [DInt 2; DInt 3] "from_front" (load ten_classes) 5 [2; 3]).
  - exact keys_ten_classes.
  - vm_compute. reflexivity.
  - vm_compute. reflexivity.
  - repeat constructor; lia.
  - vm_compute. reflexivity.
Defined.

(** [split(-1)] on the ten records in two classes raises in
    [random.sample] and leaves the dataset as it was. *)
Lemma single_split_atomic_witness :
  (split_of two_classes zeros [DInt (-1)] "random").2 = load two_classes.
Proof.
  apply (SplitMoves.single_split_atomic value_le (scan_heap two_classes)
           zeros (DInt (-1)) "random" (load two_classes) ValueError).
  - exact keys_two_classes.
  - vm_compute. reflexivity.
  - vm_compute. reflexivity.
Defined.

(** [split(1, -1, 1, method="from_front")] on the ten records in two
    classes raises [KeyError] when the third generator selects the class
    the first one took: the five records of that class are gone, and the
    class index is the old one. *)
Lemma split_failure_keeps_index_witness :
  class_data
    (split_of two_classes zeros [DInt 1; DInt (-1); DInt 1] "from_front").2
  = class_data (load two_classes) ∧
  sublist
    (data (split_of two_classes zeros [DInt 1; DInt (-1); DInt 1]
             "from_front").2).*2
    (data (load two_classes)).*2.
Proof.
  apply (SplitKeeps.split_failure_keeps_index value_le
           (scan_heap two_classes) zeros [DInt 1; DInt (-1); DInt 1]
           "from_front" (load two_classes) KeyError).
  vm_compute. reflexivity.
Defined.

(** [split(1, method="from_front")] on the ten records in two classes. *)
Lemma split_conserves_witness :
  length (produced (returned front_split)) = 1%nat ∧
  (data (load two_classes)).*2 ≡ₚ
    concat ((fun r => (data r).*2) <$> produced (returned front_split))
    ++ (data front_split.2).*2 ∧
  len (load two_classes)
  = len front_split.2 + foldr Z.add 0 (len <$> produced (returned front_split)).
Proof.
  apply (SplitKeeps.split_conserves value_le (scan_heap two_classes) zeros
           [DInt 1] "from_front" (load two_classes)).
  vm_compute. reflexivity.
Defined.

Lemma classes_bounded_witness :
  split_length (load two_classes) ≤ len (load two_classes) ∧
  (split_length (load two_classes) = 0 ↔ len (load two_classes) = 0).
Proof.
  apply (SplitKeeps.classes_bounded (scan_heap two_classes)).
  vm_compute. reflexivity.
Defined.

(** Item access at index -1 of the ten records. *)
Lemma getitem_out_of_range_witness :
  getitem VInt (load two_classes) 0.25 zeros (-1) (scan_heap two_classes)
  = (Raise KeyError, scan_heap two_classes).
Proof.
  apply ItemEdges.getitem_out_of_range.
  - vm_compute. reflexivity.
  - vm_compute. intros [Hle _]. by apply Hle.
Defined.

(** Item access on the two records in one class, with a draw that selects
    the non-matching branch. *)
Lemma getitem_single_class_raises_witness :
  ∃ h', getitem VInt (load one_class) 0.75 zeros 0 (scan_heap one_class)
        = (Raise ValueError, h') ∧
        ∀ l, l ∈ dom (scan_heap one_class) ->
             h' !! l = scan_heap one_class !! l.
Proof.
  apply (ItemEdges.getitem_single_class_raises VInt _ _ _ _ _ 1%positive).
  - exact wf_load_one_class.
  - vm_compute. reflexivity.
  - vm_compute. reflexivity.
  - vm_compute. reflexivity.
Defined.

(** Record 3 of the ten records can be paired with record 0, of the same
    class. *)
Lemma getitem_reaches_partner_witness :
  ∃ rnd base h' x,
    getitem VInt (load two_classes) 0.25 rnd 0 (scan_heap two_classes)
    = (Ok base, h') ∧
    left_of (scan_heap two_classes) (load two_classes) 3 = Ok x ∧
    (h' !!! base) =
      <["y" := VInt 1]>
        (<["x_b" := x]> (scan_heap two_classes !!! 1%positive)).
Proof.
  apply (ItemEdges.getitem_reaches_partner VInt (scan_heap two_classes)
           (load two_classes) 0.25 0 1%positive (VInt 0) 3 (VInt 0)
           {[0; 1; 2; 3; 4]}).
  - exact Cases.wf_load_two_classes.
  - vm_compute. reflexivity.
  - vm_compute. reflexivity.
  - vm_compute. reflexivity.
  - apply (bool_decide_eq_true_1 _). vm_compute. reflexivity.
  - split; [reflexivity|discriminate].
Defined.

(** [split(-1)] on the ten records. *)
Lemma split_negative_sum_witness :
  split_of two_classes zeros [DInt (-1)] "random"
  = (Raise ValueError, load two_classes).
Proof.
  apply (NegativeCounts.split_negative_sum
           (H := siamese_dataset value_le (scan_heap two_classes))
           zeros [DInt (-1)] "random" (load two_classes) (-1) [-1]).
  - vm_compute. reflexivity.
  - lia.
Defined.

(** Three tries, the third of them valid. *)
Lemma download_retries_witness :
  ∃ trace,
    download_file_from_google_drive
      (fun k => match k with 2%nat => Valid | _ => Failed end) 3 zeros
    = (Returned, trace) ∧
    downloads trace = 3%nat ∧ length (sleeps trace) = 2%nat ∧
    Forall (fun s => 5 ≤ s ≤ 10) (sleeps trace).
Proof.
  destruct (DownloadProps.download_retries
              (fun k => match k with 2%nat => Valid | _ => Failed end)
              3 zeros) as (_ & Hstop & _).
  apply (Hstop 2%nat).
  - lia.
  - intros [|[|j]] Hj; [by right|by right|lia].
  - intros [?|?]; discriminate.
Defined.

(** Both sides of [split(1, method="from_front")] on the ten records in
    two classes are well formed. *)
Lemma split_preserves_wf_witness :
  wf (scan_heap two_classes) front_split.2 ∧
  Forall (wf (scan_heap two_classes)) (produced (returned front_split)).
Proof.
  apply (SplitComposes.split_preserves_wf value_le (scan_heap two_classes)
           zeros [DInt 1] "from_front" (load two_classes)).
  - exact Cases.wf_load_two_classes.
  - vm_compute. reflexivity.
Defined.

(** [split(2, 3, method="from_front")] on the eleven records in ten
    classes takes the classes 0 to 4. *)
Lemma split_from_front_witness :
  ∃ css res self',
    split_of ten_classes zeros [DInt 2; DInt 3] "from_front"
    = (Ok res, self') ∧
    concat css = take 5 (sorted_keys value_le (load ten_classes)) ∧
    Forall2 (fun cs n => Z.of_nat (length cs) = n) css [2; 3] ∧
    Forall2 (fun cs r => dom (class_data r) = list_to_set cs)
            css (produced res) ∧
    dom (class_data self')
    = list_to_set (drop 5 (sorted_keys value_le (load ten_classes))) ∧
    (Transitive value_le -> Total value_le ->
     ∀ c c', c ∈ concat css -> c' ∈ dom (class_data self') -> value_le c c').
Proof.
  apply (SplitEnds.split_from_front value_le (scan_heap ten_classes)
           zeros [DInt 2; DInt 3] (load ten_classes) 5 [2; 3]).
  - exact keys_ten_classes.
  - vm_compute. reflexivity.
  - vm_compute. reflexivity.
  - repeat constructor; lia.
Defined.

(** [split(2, 3, method="from_back")] on the eleven records in ten
    classes takes the classes 9 down to 5. *)
Lemma split_from_back_witness :
  ∃ css res self',
    split_of ten_classes zeros [DInt 2; DInt 3] "from_back"
    = (Ok res, self') ∧
    concat css
    = reverse (drop 5 (sorted_keys value_le (load ten_classes))) ∧
    Forall2 (fun cs n => Z.of_nat (length cs) = n) css [2; 3] ∧
    Forall2 (fun cs r => dom (class_data r) = list_to_set cs)
            css (produced res) ∧
    dom (class_data self')
    = list_to_set (take 5 (sorted_keys value_le (load ten_classes))) ∧
    (Transitive value_le -> Total value_le ->
     ∀ c c', c ∈ dom (class_data self') -> c' ∈ concat css -> value_le c c').
Proof.
  assert ((length (sorted_keys value_le (load ten_classes)) - Z.to_nat 5)%nat
          = 5%nat) as Hlen by (vm_compute; reflexivity).
  rewrite <- Hlen.
  apply (SplitEnds.split_from_back value_le (scan_heap ten_classes)
           zeros [DInt 2; DInt 3] (load ten_classes) 5 [2; 3]).
  - exact keys_ten_classes.
  - vm_compute. reflexivity.
  - vm_compute. reflexivity.
  - repeat constructor; lia.
Defined.

End MoreCases.
